(** * Four-bar linkage position analysis: the solver of [generate_figures.py]

    A shallow embedding of the numeric core of [pyscript/generate_figures.py]
    (the Newton-Raphson solver [newton_raphson_4bar], the closed-form
    initialiser [analytical_solution] and the warm-started sweep of
    [generate_figure_a]) together with the properties of its control flow.

    The program computes on IEEE binary64 numbers through numpy.  Its
    arithmetic is kept abstract here: the class [FloatOps] lists the
    operations the source applies (each one a total function, as numpy's
    scalar operations are), every definition of the program is written over
    an arbitrary instance, and the theorems about control flow hold for all
    of them.  Two instances are given: Rocq's primitive binary64 floats, on
    which the program runs inside Rocq, and the real numbers, on which the
    algebra of one Newton step is exact.

    Plotting, file output and the [print] calls of the source are not
    modelled; they do not feed back into the computation.

    The callers of the source pass the link lengths as Python floats, so
    the quotients and squares of [analytical_solution] that involve link
    lengths only ([K1] to [K5]) are Python operations, which raise for a
    zero divisor or an overflowing square.  [analytical_solution] below
    takes these operations total like the others: it is the function on
    link lengths that are positive and in range, as the callers of the
    source pass them.  [Python.analytical_solution], further down, is the
    function with the exceptions of Python's float operations; the two
    agree wherever no exception is raised.  Everything
    [newton_raphson_4bar] computes goes through numpy. *)

From Stdlib Require Import ZArith List Bool Lia PeanoNat.
From Stdlib Require Import Floats.
From Stdlib Require Import Reals Lra.
Import ListNotations.

(** ** The arithmetic the program uses *)

(** One field per operation of the source: [+ - * /], unary minus, [abs],
    [x ** 2], [np.sqrt], [np.cos], [np.sin], [np.arctan], [np.radians],
    [np.degrees], the comparison [<], the conversion of an integer literal
    ([2 * A], [-2 * np.sin(theta2)], [np.radians(45)]) and the literal
    [1e-9]. *)
Class FloatOps (F : Type) : Type := {
  fadd : F -> F -> F;
  fsub : F -> F -> F;
  fmul : F -> F -> F;
  fdiv : F -> F -> F;
  fneg : F -> F;
  fabs : F -> F;
  fsquare : F -> F;
  fsqrt : F -> F;
  fcos : F -> F;
  fsin : F -> F;
  farctan : F -> F;
  fradians : F -> F;
  fdegrees : F -> F;
  fltb : F -> F -> bool;
  of_int : Z -> F;
  lit_1e_9 : F
}.

(** [np.nan], the sentinel the sweep stores for a sample that did not
    converge.  It is a class of its own: the real numbers have the
    arithmetic but no such value. *)
Class FloatNaN (F : Type) : Type := fnan : F.

Declare Scope fl_scope.
Delimit Scope fl_scope with fl.
Infix "+" := fadd : fl_scope.
Infix "-" := fsub : fl_scope.
Infix "*" := fmul : fl_scope.
Infix "/" := fdiv : fl_scope.
Notation "- x" := (fneg x) : fl_scope.
Infix "<?" := fltb : fl_scope.

(** ** newton_raphson_4bar *)

Section Solver.
Context {F : Type} {ops : FloatOps F}.
Local Open Scope fl_scope.

(** What the function returns: the 3-tuple [(theta3, theta4, converged)],
    or the 4-tuple with [history] when [track_convergence] is set
    ([history = None] stands for the 3-tuple). *)
Record SolveOutcome : Type := mkOutcome {
  theta3 : F;
  theta4 : F;
  converged : bool;
  history : option (list (nat * F))
}.

(** One pass through the body of the [for] loop either leaves the function
    by a [return] or falls through to the next pass with updated locals. *)
Inductive Flow : Type :=
| Return (out : SolveOutcome)
| Next (theta3 theta4 : F) (history : option (list (nat * F))).

Definition tol : F := lit_1e_9.
Definition max_iter : nat := 100.

(** [history.append((iteration, error_norm))] *)
Definition history_append (history : option (list (nat * F))) (e : nat * F)
  : option (list (nat * F)) :=
  option_map (fun h => h ++ [e]) history.

(** The body of [for iteration in range(max_iter)], lines 62-95. *)
Definition loop_body (r1 r2 r3 r4 theta2 : F) (track_convergence : bool)
  (iteration : nat) (theta3 theta4 : F) (history : option (list (nat * F)))
  : Flow :=
  let f1 := r2 * fcos theta2 + r3 * fcos theta3 - r4 * fcos theta4 - r1 in
  let f2 := r2 * fsin theta2 + r3 * fsin theta3 - r4 * fsin theta4 in
  let error_norm := fsqrt (fsquare f1 + fsquare f2) in
  let history :=
    if track_convergence then history_append history (iteration, error_norm)
    else history in
  if (fabs f1 <? tol) && (fabs f2 <? tol) then
    Return (if track_convergence
            then mkOutcome theta3 theta4 true history
            else mkOutcome theta3 theta4 true None)
  else
    let J11 := - r3 * fsin theta3 in
    let J12 := r4 * fsin theta4 in
    let J21 := r3 * fcos theta3 in
    let J22 := - r4 * fcos theta4 in
    let det := J11 * J22 - J12 * J21 in
    if fabs det <? lit_1e_9 then
      Return (if track_convergence
              then mkOutcome theta3 theta4 false history
              else mkOutcome theta3 theta4 false None)
    else
      let d_theta3 := ((- f1) * J22 - (- f2) * J12) / det in
      let d_theta4 := (J11 * (- f2) - J21 * (- f1)) / det in
      Next (theta3 + d_theta3) (theta4 + d_theta4) history.

(** The [for] loop over the values of [range(max_iter)] still to come, and
    the code after it (lines 97-100), reached when the range is used up. *)
Fixpoint for_range (r1 r2 r3 r4 theta2 : F) (track_convergence : bool)
  (range : list nat) (theta3 theta4 : F) (history : option (list (nat * F)))
  : SolveOutcome :=
  match range with
  | [] =>
      if track_convergence
      then mkOutcome theta3 theta4 false history
      else mkOutcome theta3 theta4 false None
  | iteration :: range' =>
      match loop_body r1 r2 r3 r4 theta2 track_convergence
                      iteration theta3 theta4 history with
      | Return out => out
      | Next theta3' theta4' history' =>
          for_range r1 r2 r3 r4 theta2 track_convergence
                    range' theta3' theta4' history'
      end
  end.

Definition newton_raphson_4bar (r1 r2 r3 r4 theta2_deg : F)
  (init_guess : F * F) (track_convergence : bool) : SolveOutcome :=
  let theta2 := fradians theta2_deg in
  let '(theta3, theta4) := init_guess in
  let history := if track_convergence then Some [] else None in
  for_range r1 r2 r3 r4 theta2 track_convergence
            (seq 0 max_iter) theta3 theta4 history.

(** ** analytical_solution *)

(** The pair the function returns; [None] is Python's [None]. *)
Definition analytical_solution (r1 r2 r3 r4 theta2_deg : F)
  : option F * option F :=
  let theta2 := fradians theta2_deg in
  let K1 := r1 / r2 in
  let K2 := r1 / r4 in
  let K3 := (fsquare r1 + fsquare r2 + fsquare r3 - fsquare r4)
            / (of_int 2 * r2 * r3) in
  let A := fcos theta2 - K1 - K2 * fcos theta2 + K3 in
  let B := of_int (-2) * fsin theta2 in
  let C := K1 - (K2 + of_int 1) * fcos theta2 + K3 in
  let discriminant := fsquare B - of_int 4 * A * C in
  if discriminant <? of_int 0 then (None, None)
  else
    let theta4_solution1 :=
      of_int 2 * farctan ((- B + fsqrt discriminant) / (of_int 2 * A)) in
    let theta4_solution2 :=
      of_int 2 * farctan ((- B - fsqrt discriminant) / (of_int 2 * A)) in
    let theta4 := theta4_solution1 in
    let K4 := r1 / r3 in
    let K5 := (fsquare r4 - fsquare r1 - fsquare r2 - fsquare r3)
              / (of_int 2 * r2 * r3) in
    let D := fcos theta2 - K1 + K4 * fcos theta4 + K5 in
    let E := of_int (-2) * fsin theta2 in
    let F' := K1 + (K4 - of_int 1) * fcos theta4 + K5 in
    let discriminant2 := fsquare E - of_int 4 * D * F' in
    if discriminant2 <? of_int 0 then (Some theta4, None)
    else
      let theta3 :=
        of_int 2 * farctan ((- E - fsqrt discriminant2) / (of_int 2 * D)) in
      (Some theta3, Some theta4).

End Solver.

Arguments SolveOutcome F : clear implicits.
Arguments Flow F : clear implicits.

(** ** The sweep of generate_figure_a *)

Section Sweep.
Context {F : Type} {ops : FloatOps F} {nanF : FloatNaN F}.
Local Open Scope fl_scope.

(** The locals the sweep loop carries from one sample to the next. *)
Record SweepState : Type := mkSweep {
  current_guess : F * F;
  theta3_sol : list F;
  theta4_sol : list F
}.

(** Lines 162-167: the guess for the first sample. *)
Definition first_guess (r1 r2 r3 r4 theta2_first : F) : F * F :=
  let '(t3_init, t4_init) := analytical_solution r1 r2 r3 r4 theta2_first in
  match t3_init, t4_init with
  | None, _ => (fradians (of_int 45), fradians (of_int 45))
  | _, None => (fradians (of_int 45), fradians (of_int 45))
  | Some t3, Some t4 => (t3, t4)
  end.

(** The body of [for t2 in theta2_range], lines 170-179. *)
Definition sweep_body (r1 r2 r3 r4 : F) (st : SweepState) (t2 : F)
  : SweepState :=
  let out := newton_raphson_4bar r1 r2 r3 r4 t2 (current_guess st) false in
  let t3 := theta3 out in
  let t4 := theta4 out in
  if converged out then
    mkSweep (t3, t4)
            (theta3_sol st ++ [fdegrees t3])
            (theta4_sol st ++ [fdegrees t4])
  else
    mkSweep (current_guess st)
            (theta3_sol st ++ [fnan])
            (theta4_sol st ++ [fnan]).

Definition sweep_loop (r1 r2 r3 r4 : F) (theta2_range : list F)
  (st : SweepState) : SweepState :=
  fold_left (sweep_body r1 r2 r3 r4) theta2_range st.

(** Lines 158-179 and the [return] of line 210, for the link lengths and
    the sample sequence given.  The sequence is passed as its first element
    and the rest: the source reads [theta2_range[0]] before the loop. *)
Definition position_sweep (r1 r2 r3 r4 : F)
  (theta2_first : F) (theta2_rest : list F) : list F * list F :=
  let theta2_range := theta2_first :: theta2_rest in
  let current_guess := first_guess r1 r2 r3 r4 theta2_first in
  let st := sweep_loop r1 r2 r3 r4 theta2_range (mkSweep current_guess [] []) in
  (theta3_sol st, theta4_sol st).

(** [generate_figure_a()]: [r1, r2, r3, r4 = 6.0, 2.0, 5.0, 5.0] and
    [np.linspace(0, 360, 361)], the samples 0.0, 1.0, ..., 360.0. *)
Definition generate_figure_a : list F * list F :=
  position_sweep (of_int 6) (of_int 2) (of_int 5) (of_int 5)
    (of_int 0) (map (fun i => of_int (Z.of_nat i)) (seq 1 360)).

End Sweep.

Arguments SweepState F : clear implicits.

(** ** Binary64 arithmetic *)

(** Rocq's primitive floats are IEEE 754 binary64 with round-to-nearest-even,
    the numbers numpy's [float64] computes on.  [+ - * /], [sqrt], [abs] and
    [<] are the hardware operations.  IEEE 754 leaves the elementary
    functions to the platform's libm; [cos], [sin] and [atan] below are a
    small reference implementation (argument reduction and a Taylor
    polynomial), good to a few units in the last place for the moderate
    arguments the solver produces.  Only the worked examples depend on
    them. *)
Module Binary64.
Local Open Scope float_scope.

Definition of_Z (z : Z) : float :=
  match z with
  | Z0 => 0
  | Zpos _ => of_uint63 (Uint63.of_Z z)
  | Zneg p => - of_uint63 (Uint63.of_Z (Zpos p))
  end.

Definition pi : float := 0x1.921fb54442d18p+1.
Definition pio2_hi : float := 0x1.921fb54442d18p+0.
Definition pio2_lo : float := 0x1.1a62633145c07p-54.

(** Nearest integer, for [|x| < 2^51]. *)
Definition rint (x : float) : float := (x + 0x1.8p+52) - 0x1.8p+52.

(** [c0 + c1 y + c2 y^2 + ...] by Horner's rule, with [ci = 1 / di]. *)
Definition poly (dens : list Z) (y : float) : float :=
  fold_right (fun d acc => 1 / of_Z d + y * acc) 0 dens.

Definition sin_kernel (r : float) : float :=
  r * poly [1; -6; 120; -5040; 362880; -39916800; 6227020800;
            -1307674368000; 355687428096000]%Z (r * r).

Definition cos_kernel (r : float) : float :=
  poly [1; -2; 24; -720; 40320; -3628800; 479001600;
        -87178291200; 20922789888000]%Z (r * r).

(** [x = k * (pi/2) + r] with [|r| <= pi/4]; the quadrant is [k mod 4]. *)
Definition reduce (x : float) : float * float :=
  let k := rint (x * (2 / pi)) in
  let r := (x - k * pio2_hi) - k * pio2_lo in
  let q := k - 4 * rint (k / 4) in
  (q, r).

Definition sin (x : float) : float :=
  let '(q, r) := reduce x in
  if q =? 0 then sin_kernel r
  else if q =? 1 then cos_kernel r
  else if q =? -1 then - cos_kernel r
  else - sin_kernel r.

Definition cos (x : float) : float :=
  let '(q, r) := reduce x in
  if q =? 0 then cos_kernel r
  else if q =? 1 then - sin_kernel r
  else if q =? -1 then sin_kernel r
  else - cos_kernel r.

(** [atan a = 2 atan (a / (1 + sqrt (1 + a^2)))] *)
Definition halve (a : float) : float :=
  a / (1 + PrimFloat.sqrt (1 + a * a)).

Definition atan_small (a : float) : float :=
  let t := halve (halve (halve a)) in
  8 * (t * poly [1; -3; 5; -7; 9; -11; 13; -15; 17; -19; 21]%Z (t * t)).

Definition atan (x : float) : float :=
  let a := PrimFloat.abs x in
  let v := if 1 <? a then pi / 2 - atan_small (1 / a) else atan_small a in
  if x <? 0 then - v else v.

#[export] Instance ops : FloatOps float := {
  fadd := PrimFloat.add;
  fsub := PrimFloat.sub;
  fmul := PrimFloat.mul;
  fdiv := PrimFloat.div;
  fneg := PrimFloat.opp;
  fabs := PrimFloat.abs;
  fsquare := fun x => x * x;
  fsqrt := PrimFloat.sqrt;
  fcos := cos;
  fsin := sin;
  farctan := atan;
  fradians := fun x => x * (pi / 180);
  fdegrees := fun x => x * (180 / pi);
  fltb := PrimFloat.ltb;
  of_int := of_Z;
  lit_1e_9 := 0x1.12e0be826d695p-30
}.

#[export] Instance nan64 : FloatNaN float := nan.

End Binary64.

(** ** Exact arithmetic *)

(** The same operations on the real numbers: the arithmetic the formulas of
    the program are derived in.  [<] is decided by [Rlt_dec]. *)
Module RealModel.
Local Open Scope R_scope.

Definition ltb (a b : R) : bool := if Rlt_dec a b then true else false.

#[export] Instance ops : FloatOps R := {
  fadd := Rplus;
  fsub := Rminus;
  fmul := Rmult;
  fdiv := Rdiv;
  fneg := Ropp;
  fabs := Rabs;
  fsquare := fun x => x * x;
  fsqrt := R_sqrt.sqrt;
  fcos := Rtrigo_def.cos;
  fsin := Rtrigo_def.sin;
  farctan := Ratan.atan;
  fradians := fun x => x * (PI / 180);
  fdegrees := fun x => x * (180 / PI);
  fltb := ltb;
  of_int := IZR;
  lit_1e_9 := / 1000000000
}.

End RealModel.

(** ** The vocabulary of the specification *)

(** The quantities the specification of the solver speaks of, for fixed
    link lengths and a fixed input angle [theta2] (in radians), as functions
    of the pair of unknowns [(theta3, theta4)]. *)
Section SolverSpec.
Context {F : Type} {ops : FloatOps F}.
Variables r1 r2 r3 r4 theta2 : F.
Local Open Scope fl_scope.

Definition residual_f1 (a : F * F) : F :=
  r2 * fcos theta2 + r3 * fcos (fst a) - r4 * fcos (snd a) - r1.

Definition residual_f2 (a : F * F) : F :=
  r2 * fsin theta2 + r3 * fsin (fst a) - r4 * fsin (snd a).

Definition error_norm_at (a : F * F) : F :=
  fsqrt (fsquare (residual_f1 a) + fsquare (residual_f2 a)).

Definition jac11 (a : F * F) : F := - r3 * fsin (fst a).
Definition jac12 (a : F * F) : F := r4 * fsin (snd a).
Definition jac21 (a : F * F) : F := r3 * fcos (fst a).
Definition jac22 (a : F * F) : F := - r4 * fcos (snd a).

Definition jac_det (a : F * F) : F :=
  jac11 a * jac22 a - jac12 a * jac21 a.

(** Both residuals are below the tolerance. *)
Definition within_tol (a : F * F) : bool :=
  (fabs (residual_f1 a) <? lit_1e_9) && (fabs (residual_f2 a) <? lit_1e_9).

(** The Jacobian is singular to working precision. *)
Definition singular (a : F * F) : bool := fabs (jac_det a) <? lit_1e_9.

(** Cramer's rule for [J d = - (f1, f2)]. *)
Definition delta_theta3 (a : F * F) : F :=
  ((- residual_f1 a) * jac22 a - (- residual_f2 a) * jac12 a) / jac_det a.

Definition delta_theta4 (a : F * F) : F :=
  (jac11 a * (- residual_f2 a) - jac21 a * (- residual_f1 a)) / jac_det a.

Definition newton_step (a : F * F) : F * F :=
  (fst a + delta_theta3 a, snd a + delta_theta4 a).

(** The angles after [k] Newton updates of the guess [a]. *)
Fixpoint iterate (k : nat) (a : F * F) : F * F :=
  match k with
  | O => a
  | S k' => iterate k' (newton_step a)
  end.

(** The iteration at [a] neither meets the tolerance nor finds the Jacobian
    singular, so it performs its update. *)
Definition proceeds (a : F * F) : bool :=
  negb (within_tol a) && negb (singular a).

(** Iteration [k] (counting from 0) is reached: every earlier one performed
    its update. *)
Definition reached (k : nat) (a : F * F) : Prop :=
  forall j, (j < k)%nat -> proceeds (iterate j a) = true.

Definition reachedb (k : nat) (a : F * F) : bool :=
  forallb (fun j => proceeds (iterate j a)) (seq 0 k).

(** The number of iterations that examine their residuals when the loop may
    run [fuel] times from [a]. *)
Fixpoint examined (fuel : nat) (a : F * F) : nat :=
  match fuel with
  | O => O
  | S fuel' =>
      if proceeds a then S (examined fuel' (newton_step a)) else 1%nat
  end.

(** The history entries of iterations [i], [i+1], ..., [i+n-1], the first of
    them at the angles [a]. *)
Fixpoint entries (i n : nat) (a : F * F) : list (nat * F) :=
  match n with
  | O => []
  | S n' => (i, error_norm_at a) :: entries (S i) n' (newton_step a)
  end.

End SolverSpec.

(** The quantities the specification of the initialiser speaks of. *)
Section AnalyticalSpec.
Context {F : Type} {ops : FloatOps F}.
Variables r1 r2 r3 r4 theta2_deg : F.
Local Open Scope fl_scope.

Definition K1 : F := r1 / r2.
Definition K2 : F := r1 / r4.
Definition K3 : F :=
  (fsquare r1 + fsquare r2 + fsquare r3 - fsquare r4) / (of_int 2 * r2 * r3).
Definition K4 : F := r1 / r3.
Definition K5 : F :=
  (fsquare r4 - fsquare r1 - fsquare r2 - fsquare r3) / (of_int 2 * r2 * r3).

Definition coef_A : F :=
  fcos (fradians theta2_deg) - K1 - K2 * fcos (fradians theta2_deg) + K3.
Definition coef_B : F := of_int (-2) * fsin (fradians theta2_deg).
Definition coef_C : F :=
  K1 - (K2 + of_int 1) * fcos (fradians theta2_deg) + K3.

Definition discriminant : F := fsquare coef_B - of_int 4 * coef_A * coef_C.

(** The root with [+ sqrt]: the open configuration. *)
Definition theta4_open : F :=
  of_int 2 * farctan ((- coef_B + fsqrt discriminant) / (of_int 2 * coef_A)).

(** The root with [- sqrt]: the crossed configuration. *)
Definition theta4_crossed : F :=
  of_int 2 * farctan ((- coef_B - fsqrt discriminant) / (of_int 2 * coef_A)).

Definition coef_D : F :=
  fcos (fradians theta2_deg) - K1 + K4 * fcos theta4_open + K5.
Definition coef_E : F := of_int (-2) * fsin (fradians theta2_deg).
Definition coef_F : F := K1 + (K4 - of_int 1) * fcos theta4_open + K5.

Definition discriminant2 : F := fsquare coef_E - of_int 4 * coef_D * coef_F.

Definition theta3_branch : F :=
  of_int 2 * farctan ((- coef_E - fsqrt discriminant2) / (of_int 2 * coef_D)).

End AnalyticalSpec.


(** What the sweep stores for one sample, given the outcome of its solve. *)
Definition recorded {F : Type} {ops : FloatOps F} {nanF : FloatNaN F}
  (out : SolveOutcome F) : F * F :=
  if converged out then (fdegrees (theta3 out), fdegrees (theta4 out))
  else (fnan, fnan).

(** The guess the sweep hands on, given the guess it used and the outcome. *)
Definition next_guess {F : Type} {ops : FloatOps F}
  (guess : F * F) (out : SolveOutcome F) : F * F :=
  if converged out then (theta3 out, theta4 out) else guess.

(** The outcome a [return] of the solver builds: the history is part of it
    only when [track_convergence] is set. *)
Definition outcome_of {F : Type} (track_convergence : bool) (a : F * F)
  (conv : bool) (h : option (list (nat * F))) : SolveOutcome F :=
  if track_convergence then mkOutcome (fst a) (snd a) conv h
  else mkOutcome (fst a) (snd a) conv None.

(** The history after the entries [es] were appended one by one. *)
Definition logged {F : Type} (track_convergence : bool)
  (h : option (list (nat * F))) (es : list (nat * F))
  : option (list (nat * F)) :=
  if track_convergence then option_map (fun l => l ++ es) h else h.

(** * Properties of the solver loop *)

Section SolverLoop.
Context {F : Type} {ops : FloatOps F}.
Variables r1 r2 r3 r4 theta2 : F.
Variable track : bool.

Local Abbreviation body := (loop_body r1 r2 r3 r4 theta2 track).
Local Abbreviation run := (for_range r1 r2 r3 r4 theta2 track).
Local Abbreviation step := (newton_step r1 r2 r3 r4 theta2).
Local Abbreviation iter := (iterate r1 r2 r3 r4 theta2).
Local Abbreviation err := (error_norm_at r1 r2 r3 r4 theta2).
Local Abbreviation in_tol := (within_tol r1 r2 r3 r4 theta2).
Local Abbreviation sing := (singular r3 r4).
Local Abbreviation goes := (proceeds r1 r2 r3 r4 theta2).
Local Abbreviation reach := (reached r1 r2 r3 r4 theta2).
Local Abbreviation ents := (entries r1 r2 r3 r4 theta2).

(** One pass of the loop, in the vocabulary of the specification. *)
Lemma loop_body_unfold (iteration : nat) (a : F * F) h :
  body iteration (fst a) (snd a) h =
  let h' := logged track h [(iteration, err a)] in
  if in_tol a then Return (outcome_of track a true h')
  else if sing a then Return (outcome_of track a false h')
  else Next (fst (step a)) (snd (step a)) h'.
Proof.
  unfold logged, outcome_of. destruct track; reflexivity.
Qed.

Lemma loop_body_proceeds (iteration : nat) (a : F * F) h :
  goes a = true ->
  body iteration (fst a) (snd a) h =
  Next (fst (step a)) (snd (step a)) (logged track h [(iteration, err a)]).
Proof.
  intros Hg. rewrite loop_body_unfold. cbv zeta.
  unfold proceeds in Hg. apply andb_true_iff in Hg as [Ht Hs].
  apply negb_true_iff in Ht. apply negb_true_iff in Hs.
  rewrite Ht, Hs. reflexivity.
Qed.

Lemma logged_nil (h : option (list (nat * F))) : logged track h [] = h.
Proof.
  unfold logged. destruct track; [|reflexivity].
  destruct h as [l|]; simpl; [rewrite app_nil_r|]; reflexivity.
Qed.

Lemma logged_app (h : option (list (nat * F))) es es' :
  logged track (logged track h es) es' = logged track h (es ++ es').
Proof.
  unfold logged. destruct track; [|reflexivity].
  destruct h as [l|]; simpl; [rewrite app_assoc|]; reflexivity.
Qed.

Lemma iterate_succ k a : iter (S k) a = step (iter k a).
Proof.
  revert a. induction k as [|k IH]; intros a; [reflexivity|].
  change (iter (S (S k)) a) with (iter (S k) (step a)).
  rewrite IH. reflexivity.
Qed.

Lemma reached_succ k a :
  reach (S k) a <-> goes a = true /\ reach k (step a).
Proof.
  unfold reached. split.
  - intros H. split.
    + apply (H 0%nat). lia.
    + intros j Hj. apply (H (S j)). lia.
  - intros [H0 H] [|j] Hj; [exact H0|]. apply H. lia.
Qed.

Lemma reached_le k k' a : (k' <= k)%nat -> reach k a -> reach k' a.
Proof. unfold reached. intros Hle H j Hj. apply H. lia. Qed.

Lemma reachedb_spec k a : reachedb r1 r2 r3 r4 theta2 k a = true <-> reach k a.
Proof.
  unfold reachedb, reached. rewrite forallb_forall. split.
  - intros H j Hj. apply H. apply in_seq. lia.
  - intros H j Hj. apply in_seq in Hj. apply H. lia.
Qed.

Lemma entries_length i n a : length (ents i n a) = n.
Proof.
  revert i a. induction n as [|n IH]; intros i a; simpl; [|rewrite IH];
    reflexivity.
Qed.

Lemma entries_nth i n a j :
  (j < n)%nat -> nth_error (ents i n a) j = Some ((i + j)%nat, err (iter j a)).
Proof.
  revert i a j. induction n as [|n IH]; intros i a j Hj; [lia|].
  destruct j as [|j]; simpl.
  - rewrite Nat.add_0_r. reflexivity.
  - rewrite IH by lia. rewrite Nat.add_succ_r. reflexivity.
Qed.

Lemma entries_snoc i n a :
  ents i (S n) a = ents i n a ++ [((i + n)%nat, err (iter n a))].
Proof.
  revert i a. induction n as [|n IH]; intros i a.
  - simpl. rewrite Nat.add_0_r. reflexivity.
  - change (ents i (S (S n)) a)
      with ((i, err a) :: ents (S i) (S n) (step a)).
    rewrite IH. simpl. rewrite Nat.add_succ_r. reflexivity.
Qed.

(** The loop invariant: while the iterations perform their updates, the
    locals are the Newton iterates and the history grows by one entry per
    iteration. *)
Lemma for_range_proceeds k : forall n i a h,
  reach k a ->
  run (seq i (k + n)) (fst a) (snd a) h =
  run (seq (i + k) n) (fst (iter k a)) (snd (iter k a))
      (logged track h (ents i k a)).
Proof.
  induction k as [|k IH]; intros n i a h Hr.
  - simpl. rewrite Nat.add_0_r, logged_nil. reflexivity.
  - apply reached_succ in Hr as [Hg Hr].
    change (seq i (S k + n)) with (i :: seq (S i) (k + n)).
    cbn [for_range]. rewrite (loop_body_proceeds i a h Hg).
    rewrite (IH n (S i) (step a) _ Hr).
    rewrite logged_app. rewrite Nat.add_succ_r. reflexivity.
Qed.

(** The loop leaves by a [return] in the first iteration that does not
    perform its update. *)
Lemma for_range_stops k n i a h :
  reach k a -> goes (iter k a) = false ->
  run (seq i (k + S n)) (fst a) (snd a) h =
  outcome_of track (iter k a) (in_tol (iter k a))
             (logged track h (ents i (S k) a)).
Proof.
  intros Hr Hg. rewrite (for_range_proceeds k (S n) i a h Hr).
  cbn [seq for_range]. rewrite loop_body_unfold. cbv zeta.
  rewrite logged_app, <- entries_snoc.
  unfold proceeds in Hg. apply andb_false_iff in Hg.
  destruct (in_tol (iter k a)) eqn:Ht; [reflexivity|].
  destruct (sing (iter k a)) eqn:Hs; [reflexivity|].
  destruct Hg as [Hg|Hg]; discriminate Hg.
Qed.

(** The range is used up when every iteration performs its update. *)
Lemma for_range_exhausts n i a h :
  reach n a ->
  run (seq i n) (fst a) (snd a) h =
  outcome_of track (iter n a) false (logged track h (ents i n a)).
Proof.
  intros Hr. pose proof (for_range_proceeds n 0 i a h Hr) as E.
  rewrite Nat.add_0_r in E. rewrite E. reflexivity.
Qed.

(** Either all of the first [n] iterations perform their update, or there is
    a first one that does not. *)
Lemma first_stop n a :
  reach n a \/
  exists k, (k < n)%nat /\ reach k a /\ goes (iter k a) = false.
Proof.
  induction n as [|n IH].
  - left. intros j Hj. lia.
  - destruct IH as [Hr | (k & Hk & Hr & Hg)].
    + destruct (goes (iter n a)) eqn:Hg.
      * left. intros j Hj. destruct (Nat.eq_dec j n) as [->|Hne];
          [exact Hg | apply Hr; lia].
      * right. exists n. repeat split; [lia | exact Hr | exact Hg].
    + right. exists k. repeat split; [lia | exact Hr | exact Hg].
Qed.

Lemma examined_stops fuel k a :
  (k < fuel)%nat -> reach k a -> goes (iter k a) = false ->
  examined r1 r2 r3 r4 theta2 fuel a = S k.
Proof.
  revert fuel a. induction k as [|k IH]; intros fuel a Hk Hr Hg;
    (destruct fuel as [|fuel]; [lia|]); simpl.
  - simpl in Hg. rewrite Hg. reflexivity.
  - apply reached_succ in Hr as [Hg0 Hr]. rewrite Hg0.
    rewrite (IH fuel (step a)); [reflexivity | lia | exact Hr | exact Hg].
Qed.

Lemma examined_exhausts fuel a :
  reach fuel a -> examined r1 r2 r3 r4 theta2 fuel a = fuel.
Proof.
  revert a. induction fuel as [|fuel IH]; intros a Hr; [reflexivity|].
  apply reached_succ in Hr as [Hg Hr]. simpl. rewrite Hg, (IH _ Hr).
  reflexivity.
Qed.

End SolverLoop.

(** * Properties of newton_raphson_4bar *)

Section SolverTheorems.
Context {F : Type} {ops : FloatOps F}.
Variables r1 r2 r3 r4 theta2_deg : F.
Variable init_guess : F * F.

Local Abbreviation theta2 := (fradians theta2_deg).
Local Abbreviation solve :=
  (newton_raphson_4bar r1 r2 r3 r4 theta2_deg init_guess).
Local Abbreviation angles_at k := (iterate r1 r2 r3 r4 theta2 k init_guess).
Local Abbreviation f1_at k := (residual_f1 r1 r2 r3 r4 theta2 (angles_at k)).
Local Abbreviation f2_at k := (residual_f2 r2 r3 r4 theta2 (angles_at k)).
Local Abbreviation det_at k := (jac_det r3 r4 (angles_at k)).
Local Abbreviation in_tol_at k := (within_tol r1 r2 r3 r4 theta2 (angles_at k)).
Local Abbreviation sing_at k := (singular r3 r4 (angles_at k)).
Local Abbreviation goes_at k := (proceeds r1 r2 r3 r4 theta2 (angles_at k)).
Local Abbreviation reach k := (reached r1 r2 r3 r4 theta2 k init_guess).
Local Abbreviation ents n := (entries r1 r2 r3 r4 theta2 0 n init_guess).

Lemma solve_unfold track :
  solve track =
  for_range r1 r2 r3 r4 theta2 track (seq 0 max_iter)
            (fst init_guess) (snd init_guess)
            (if track then Some [] else None).
Proof. unfold newton_raphson_4bar. destruct init_guess. reflexivity. Qed.

Lemma logged_start track es :
  logged track (if track then Some [] else None) es
  = if track then Some es else (@None (list (nat * F))).
Proof. destruct track; reflexivity. Qed.

(** The solver returns from the first iteration that does not perform its
    update, with the angles that iteration started from. *)
Lemma solve_stops track k :
  (k < max_iter)%nat -> reach k -> goes_at k = false ->
  solve track =
  outcome_of track (angles_at k) (in_tol_at k)
             (if track then Some (ents (S k)) else None).
Proof.
  intros Hk Hr Hg. rewrite solve_unfold.
  replace max_iter with (k + S (max_iter - S k))%nat by lia.
  rewrite (for_range_stops r1 r2 r3 r4 theta2 track k _ 0 init_guess _ Hr Hg).
  rewrite logged_start. reflexivity.
Qed.

(** The solver returns after the loop when all [max_iter] iterations
    perform their update. *)
Lemma solve_exhausts track :
  reach max_iter ->
  solve track =
  outcome_of track (angles_at max_iter) false
             (if track then Some (ents max_iter) else None).
Proof.
  intros Hr. rewrite solve_unfold.
  rewrite (for_range_exhausts r1 r2 r3 r4 theta2 track max_iter 0 init_guess _ Hr).
  rewrite logged_start. reflexivity.
Qed.

Lemma converged_outcome_of track a c h :
  converged (@outcome_of F track a c h) = c.
Proof. unfold outcome_of. destruct track; reflexivity. Qed.

Lemma angles_outcome_of track a c h :
  (theta3 (@outcome_of F track a c h), theta4 (@outcome_of F track a c h)) = a.
Proof. unfold outcome_of. destruct track, a; reflexivity. Qed.

Lemma history_outcome_of a c h :
  history (@outcome_of F true a c h) = h.
Proof. reflexivity. Qed.

Lemma proceeds_false_iff a :
  proceeds r1 r2 r3 r4 theta2 a = false <->
  within_tol r1 r2 r3 r4 theta2 a = true \/
  (within_tol r1 r2 r3 r4 theta2 a = false /\ singular r3 r4 a = true).
Proof.
  unfold proceeds.
  destruct (within_tol r1 r2 r3 r4 theta2 a), (singular r3 r4 a); simpl;
    (split; [intros H | intros [H|[H1 H2]]]); try congruence;
    try (left; congruence); right; split; congruence.
Qed.

Lemma proceeds_true_iff a :
  proceeds r1 r2 r3 r4 theta2 a = true <->
  within_tol r1 r2 r3 r4 theta2 a = false /\ singular r3 r4 a = false.
Proof.
  unfold proceeds.
  destruct (within_tol r1 r2 r3 r4 theta2 a), (singular r3 r4 a); simpl;
    (split; [intros H | intros [H1 H2]]); try congruence;
    split; congruence.
Qed.

(** C1.  The solver returns [converged = true] exactly when some iteration
    [k < 100] is reached and finds, before it computes its Jacobian, both
    [|f1| < 1e-9] and [|f2| < 1e-9]; the angles returned are then the ones
    that iteration started from, the result of the [k] updates before it. *)
Theorem newton_converged_iff track :
  let out := newton_raphson_4bar r1 r2 r3 r4 theta2_deg init_guess track in
  (converged out = true <->
   exists k, (k < 100)%nat /\ reach k /\
             (fabs (f1_at k) <? lit_1e_9)%fl = true /\
             (fabs (f2_at k) <? lit_1e_9)%fl = true) /\
  (forall k, (k < 100)%nat -> reach k ->
             (fabs (f1_at k) <? lit_1e_9)%fl = true ->
             (fabs (f2_at k) <? lit_1e_9)%fl = true ->
             (theta3 out, theta4 out) = angles_at k).
Proof.
  cbv zeta.
  assert (Hback : forall k, (k < 100)%nat -> reach k ->
             (fabs (f1_at k) <? lit_1e_9)%fl = true ->
             (fabs (f2_at k) <? lit_1e_9)%fl = true ->
             solve track = outcome_of track (angles_at k) true
                             (if track then Some (ents (S k)) else None)).
  { intros k Hk Hr H1 H2.
    assert (Ht : in_tol_at k = true)
      by (unfold within_tol; rewrite H1, H2; reflexivity).
    rewrite (solve_stops track k Hk Hr), Ht; [reflexivity|].
    apply proceeds_false_iff. left. exact Ht. }
  split; [split|].
  - intros Hc.
    destruct (first_stop r1 r2 r3 r4 theta2 max_iter init_guess)
      as [Hr | (k & Hk & Hr & Hg)].
    + rewrite (solve_exhausts track Hr), converged_outcome_of in Hc.
      discriminate Hc.
    + rewrite (solve_stops track k Hk Hr Hg), converged_outcome_of in Hc.
      exists k. unfold within_tol in Hc. apply andb_true_iff in Hc as [H1 H2].
      auto.
  - intros (k & Hk & Hr & H1 & H2).
    rewrite (Hback k Hk Hr H1 H2). apply converged_outcome_of.
  - intros k Hk Hr H1 H2.
    rewrite (Hback k Hk Hr H1 H2). apply angles_outcome_of.
Qed.

(** C3.  When an iteration [k < 100] is reached, does not meet the
    tolerance and finds [|det| < 1e-9], the solver returns at once:
    [converged = false], the angles are the ones that iteration started
    from (no update is applied to them), and a tracked history ends with
    the entry of that iteration.  The outcome is an ordinary return value:
    the function is total. *)
Theorem newton_singular_returns track k :
  let out := newton_raphson_4bar r1 r2 r3 r4 theta2_deg init_guess track in
  (k < 100)%nat -> reach k ->
  ((fabs (f1_at k) <? lit_1e_9) && (fabs (f2_at k) <? lit_1e_9))%fl = false ->
  (fabs (det_at k) <? lit_1e_9)%fl = true ->
  converged out = false /\
  (theta3 out, theta4 out) = angles_at k /\
  history out = if track then Some (ents (S k)) else None.
Proof.
  cbv zeta.
  intros Hk Hr Ht Hs.
  assert (Hg : goes_at k = false).
  { apply proceeds_false_iff. right. split; assumption. }
  rewrite (solve_stops track k Hk Hr Hg).
  change (in_tol_at k = false) in Ht. rewrite Ht. repeat split.
  - apply converged_outcome_of.
  - apply angles_outcome_of.
  - unfold outcome_of. destruct track; reflexivity.
Qed.

(** C4.  The solver always returns, after at most 100 Newton updates: the
    angles it returns are those after [k] updates for some [k <= 100], and a
    tracked history has at most 100 entries.  When none of the 100
    iterations meets the tolerance or finds a singular Jacobian, it returns
    [converged = false] with the angles after the 100th update. *)
Theorem newton_terminates_within_max_iter track :
  let out := newton_raphson_4bar r1 r2 r3 r4 theta2_deg init_guess track in
  (exists k, (k <= 100)%nat /\
             (theta3 out, theta4 out) = angles_at k /\
             history out
             = if track then Some (ents (Nat.min (S k) 100)) else None) /\
  ((forall k, (k < 100)%nat ->
      ((fabs (f1_at k) <? lit_1e_9) && (fabs (f2_at k) <? lit_1e_9))%fl = false
      /\ (fabs (det_at k) <? lit_1e_9)%fl = false) ->
   converged out = false /\
   (theta3 out, theta4 out) = angles_at 100).
Proof.
  cbv zeta.
  split.
  - destruct (first_stop r1 r2 r3 r4 theta2 max_iter init_guess)
      as [Hr | (k & Hk & Hr & Hg)].
    + exists 100%nat. rewrite (solve_exhausts track Hr).
      repeat split; [lia | apply angles_outcome_of |].
      unfold outcome_of. destruct track; reflexivity.
    + exists k. unfold max_iter in Hk. rewrite (solve_stops track k Hk Hr Hg).
      repeat split; [lia | apply angles_outcome_of |].
      replace (Nat.min (S k) 100) with (S k) by lia.
      unfold outcome_of. destruct track; reflexivity.
  - intros Hall.
    assert (Hr : reach max_iter).
    { intros j Hj. apply proceeds_true_iff. apply (Hall j Hj). }
    rewrite (solve_exhausts track Hr). split.
    + apply converged_outcome_of.
    + apply angles_outcome_of.
Qed.

(** C9.  With [track_convergence] set, the returned history holds exactly
    one entry per iteration examined, in order: entry [j] is
    [(j, error_norm)] with the error norm of the angles iteration [j]
    started from.  Their number is between 1 and 100, and when the solver
    converged the last entry is the one of the iteration that met the
    tolerance. *)
Theorem history_one_entry_per_iteration :
  let out := newton_raphson_4bar r1 r2 r3 r4 theta2_deg init_guess true in
  exists h,
    history out = Some h /\
    length h = examined r1 r2 r3 r4 theta2 100 init_guess /\
    (1 <= length h <= 100)%nat /\
    (forall j, (j < length h)%nat ->
       nth_error h j
       = Some (j, error_norm_at r1 r2 r3 r4 theta2 (angles_at j))) /\
    (converged out = true ->
       in_tol_at (length h - 1) = true /\
       (theta3 out, theta4 out) = angles_at (length h - 1)).
Proof.
  cbv zeta.
  destruct (first_stop r1 r2 r3 r4 theta2 max_iter init_guess)
    as [Hr | (k & Hk & Hr & Hg)].
  - exists (ents max_iter). rewrite (solve_exhausts true Hr).
    rewrite entries_length.
    split; [reflexivity|]. split.
    { symmetry. apply (examined_exhausts r1 r2 r3 r4 theta2 100 init_guess Hr). }
    split; [unfold max_iter; lia|]. split.
    + intros j Hj. apply (entries_nth r1 r2 r3 r4 theta2 0 max_iter init_guess j Hj).
    + intros Hc. discriminate Hc.
  - exists (ents (S k)). rewrite (solve_stops true k Hk Hr Hg).
    rewrite entries_length.
    split; [reflexivity|]. split.
    { symmetry.
      apply (examined_stops r1 r2 r3 r4 theta2 100 k init_guess Hk Hr Hg). }
    split; [unfold max_iter in Hk; lia|]. split.
    + intros j Hj. apply (entries_nth r1 r2 r3 r4 theta2 0 (S k) init_guess j Hj).
    + intros Hc. simpl in Hc. replace (S k - 1)%nat with k by lia.
      split; [exact Hc | apply angles_outcome_of].
Qed.

End SolverTheorems.

(** * One Newton iteration in exact arithmetic *)

Section RealStep.
Local Open Scope R_scope.

Lemma real_ltb_true (a b : R) : RealModel.ltb a b = true <-> a < b.
Proof.
  unfold RealModel.ltb. destruct (Rlt_dec a b); split; intros H;
    try assumption; try reflexivity; try discriminate; contradiction.
Qed.




End RealStep.

(** * Properties of analytical_solution *)

Section AnalyticalTheorems.
Context {F : Type} {ops : FloatOps F}.
Variables r1 r2 r3 r4 theta2_deg : F.
Local Open Scope fl_scope.

Local Abbreviation disc := (discriminant r1 r2 r3 r4 theta2_deg).
Local Abbreviation disc2 := (discriminant2 r1 r2 r3 r4 theta2_deg).
Local Abbreviation th4 := (theta4_open r1 r2 r3 r4 theta2_deg).
Local Abbreviation th3 := (theta3_branch r1 r2 r3 r4 theta2_deg).

(** The three ways out of the function. *)
Lemma analytical_solution_unfold :
  analytical_solution r1 r2 r3 r4 theta2_deg =
  if disc <? of_int 0 then (None, None)
  else if disc2 <? of_int 0 then (Some th4, None)
  else (Some th3, Some th4).
Proof. reflexivity. Qed.


End AnalyticalTheorems.

(** * Properties of the sweep *)

Section SweepSpec.
Context {F : Type} {ops : FloatOps F} {nanF : FloatNaN F}.
Variables r1 r2 r3 r4 : F.
Variable guess0 : F * F.

(** The locals of the sweep loop once the samples [done] are processed,
    when the loop is entered with the guess [guess0] and empty outputs. *)
Definition sweep_after (done : list F) : SweepState F :=
  sweep_loop r1 r2 r3 r4 done (mkSweep guess0 [] []).

(** The initial guess the solver is given for the sample that follows the
    samples [done]. *)
Definition guess_for (done : list F) : F * F :=
  current_guess (sweep_after done).

(** The outcome of the solve of the sample [t2] that follows [done]. *)
Definition outcome_for (done : list F) (t2 : F) : SolveOutcome F :=
  newton_raphson_4bar r1 r2 r3 r4 t2 (guess_for done) false.

(** No sample of [later], processed after [done], converges. *)
Definition none_converged (done later : list F) : Prop :=
  forall p x q, later = p ++ x :: q ->
                converged (outcome_for (done ++ p) x) = false.

End SweepSpec.

Section SweepTheorems.
Context {F : Type} {ops : FloatOps F} {nanF : FloatNaN F}.
Variables r1 r2 r3 r4 : F.

Local Abbreviation loop := (sweep_loop r1 r2 r3 r4).
Local Abbreviation sbody := (sweep_body r1 r2 r3 r4).

Lemma sweep_loop_app l l' st : loop (l ++ l') st = loop l' (loop l st).
Proof. unfold sweep_loop. apply fold_left_app. Qed.

Lemma sweep_body_unfold st t2 :
  let out := newton_raphson_4bar r1 r2 r3 r4 t2 (current_guess st) false in
  sbody st t2 =
  mkSweep (next_guess (current_guess st) out)
          (theta3_sol st ++ [fst (recorded out)])
          (theta4_sol st ++ [snd (recorded out)]).
Proof.
  cbv zeta. unfold sweep_body, next_guess, recorded.
  destruct (converged _); reflexivity.
Qed.

(** The loop only appends to the two output lists, one element each per
    sample. *)
Lemma sweep_loop_extends l : forall st,
  exists e3 e4,
    theta3_sol (loop l st) = theta3_sol st ++ e3 /\
    theta4_sol (loop l st) = theta4_sol st ++ e4 /\
    length e3 = length l /\ length e4 = length l.
Proof.
  induction l as [|t2 l IH]; intros st.
  - exists [], []. simpl. rewrite !app_nil_r. auto.
  - destruct (IH (sbody st t2)) as (e3 & e4 & H3 & H4 & L3 & L4).
    pose proof (sweep_body_unfold st t2) as Eb. cbv zeta in Eb.
    change (loop (t2 :: l) st) with (loop l (sbody st t2)).
    rewrite H3, H4, Eb. cbn [theta3_sol theta4_sol].
    set (out := newton_raphson_4bar r1 r2 r3 r4 t2 (current_guess st) false).
    exists (fst (recorded out) :: e3), (snd (recorded out) :: e4).
    rewrite <- !app_assoc. simpl. rewrite L3, L4. auto.
Qed.

Lemma sweep_after_lengths guess0 done :
  length (theta3_sol (sweep_after r1 r2 r3 r4 guess0 done)) = length done /\
  length (theta4_sol (sweep_after r1 r2 r3 r4 guess0 done)) = length done.
Proof.
  unfold sweep_after.
  destruct (sweep_loop_extends done (mkSweep guess0 [] []))
    as (e3 & e4 & H3 & H4 & L3 & L4).
  rewrite H3, H4. simpl. auto.
Qed.

(** The state after one more sample. *)
Lemma sweep_after_snoc guess0 done t2 :
  sweep_after r1 r2 r3 r4 guess0 (done ++ [t2]) =
  let st := sweep_after r1 r2 r3 r4 guess0 done in
  let out := outcome_for r1 r2 r3 r4 guess0 done t2 in
  mkSweep (next_guess (guess_for r1 r2 r3 r4 guess0 done) out)
          (theta3_sol st ++ [fst (recorded out)])
          (theta4_sol st ++ [snd (recorded out)]).
Proof.
  unfold sweep_after at 1. rewrite sweep_loop_app.
  change (loop [t2] ?s) with (sbody s t2).
  rewrite sweep_body_unfold. reflexivity.
Qed.

(** What the finished sweep holds at the position of a sample. *)
Lemma sweep_records guess0 done t2 later :
  let st := sweep_after r1 r2 r3 r4 guess0 (done ++ t2 :: later) in
  let out := outcome_for r1 r2 r3 r4 guess0 done t2 in
  nth_error (theta3_sol st) (length done) = Some (fst (recorded out)) /\
  nth_error (theta4_sol st) (length done) = Some (snd (recorded out)).
Proof.
  cbv zeta.
  replace (done ++ t2 :: later) with ((done ++ [t2]) ++ later)
    by (rewrite <- app_assoc; reflexivity).
  unfold sweep_after at 1 2. rewrite sweep_loop_app.
  fold (sweep_after r1 r2 r3 r4 guess0 (done ++ [t2])).
  destruct (sweep_loop_extends later (sweep_after r1 r2 r3 r4 guess0 (done ++ [t2])))
    as (e3 & e4 & H3 & H4 & _ & _).
  rewrite H3, H4, sweep_after_snoc. cbv zeta. cbn [theta3_sol theta4_sol].
  destruct (sweep_after_lengths guess0 done) as [L3 L4].
  rewrite <- !app_assoc. split.
  - rewrite nth_error_app2 by lia. rewrite L3, Nat.sub_diag. reflexivity.
  - rewrite nth_error_app2 by lia. rewrite L4, Nat.sub_diag. reflexivity.
Qed.

(** Samples that do not converge leave the guess as it was. *)
Lemma guess_kept guess0 later : forall done,
  none_converged r1 r2 r3 r4 guess0 done later ->
  guess_for r1 r2 r3 r4 guess0 (done ++ later)
  = guess_for r1 r2 r3 r4 guess0 done.
Proof.
  induction later as [|x later IH]; intros done Hn.
  - rewrite app_nil_r. reflexivity.
  - replace (done ++ x :: later) with ((done ++ [x]) ++ later)
      by (rewrite <- app_assoc; reflexivity).
    rewrite IH.
    + unfold guess_for. rewrite sweep_after_snoc. cbv zeta.
      cbn [current_guess]. unfold next_guess.
      pose proof (Hn [] x later eq_refl) as Hx. rewrite app_nil_r in Hx.
      rewrite Hx. reflexivity.
    + intros p y q E. rewrite <- app_assoc. apply (Hn (x :: p) y q).
      rewrite E. reflexivity.
Qed.

Lemma position_sweep_unfold theta2_first theta2_rest :
  position_sweep r1 r2 r3 r4 theta2_first theta2_rest =
  let st := sweep_after r1 r2 r3 r4 (first_guess r1 r2 r3 r4 theta2_first)
                        (theta2_first :: theta2_rest) in
  (theta3_sol st, theta4_sol st).
Proof. reflexivity. Qed.

(** C5.  Let [t2] be a sample of the sweep and [done] the samples before it.
    The solve of [t2] is started from [guess_for done]; what the sweep stores
    at the position of [t2] is that solve's pair of angles in degrees, or NaN
    twice when it did not converge.  The guess handed to the next sample is
    the pair of angles just found when the solve converged and the guess
    just used, not the failed iterate, when it did not.  Hence the guess for
    [t2] is the pair of angles of the most recent sample before it that
    converged, and the guess of the first sample when none did. *)
Theorem sweep_warm_start
  (theta2_first : F) (theta2_rest done later : list F) (t2 : F) :
  let guess0 := first_guess r1 r2 r3 r4 theta2_first in
  let result := position_sweep r1 r2 r3 r4 theta2_first theta2_rest in
  let out :=
    newton_raphson_4bar r1 r2 r3 r4 t2
      (guess_for r1 r2 r3 r4 guess0 done) false in
  theta2_first :: theta2_rest = done ++ t2 :: later ->
  nth_error (fst result) (length done)
    = Some (if converged out then fdegrees (theta3 out) else fnan) /\
  nth_error (snd result) (length done)
    = Some (if converged out then fdegrees (theta4 out) else fnan) /\
  guess_for r1 r2 r3 r4 guess0 (done ++ [t2])
    = (if converged out then (theta3 out, theta4 out)
       else guess_for r1 r2 r3 r4 guess0 done) /\
  (forall d1 s d2,
      done = d1 ++ s :: d2 ->
      converged (outcome_for r1 r2 r3 r4 guess0 d1 s) = true ->
      none_converged r1 r2 r3 r4 guess0 (d1 ++ [s]) d2 ->
      guess_for r1 r2 r3 r4 guess0 done
      = (theta3 (outcome_for r1 r2 r3 r4 guess0 d1 s),
         theta4 (outcome_for r1 r2 r3 r4 guess0 d1 s))) /\
  (none_converged r1 r2 r3 r4 guess0 [] done ->
   guess_for r1 r2 r3 r4 guess0 done = guess0).
Proof.
  intros guess0 result out Hsplit.
  assert (Hres : result =
            (theta3_sol (sweep_after r1 r2 r3 r4 guess0 (done ++ t2 :: later)),
             theta4_sol (sweep_after r1 r2 r3 r4 guess0 (done ++ t2 :: later)))).
  { unfold result. rewrite position_sweep_unfold. cbv zeta.
    fold guess0. rewrite Hsplit. reflexivity. }
  destruct (sweep_records guess0 done t2 later) as [R3 R4].
  fold (outcome_for r1 r2 r3 r4 guess0 done t2) in out.
  repeat split.
  - rewrite Hres. cbn [fst]. rewrite R3. unfold recorded. fold out.
    destruct (converged out); reflexivity.
  - rewrite Hres. cbn [snd]. rewrite R4. unfold recorded. fold out.
    destruct (converged out); reflexivity.
  - unfold guess_for at 1. rewrite sweep_after_snoc. reflexivity.
  - intros d1 s d2 -> Hc Hn.
    replace (d1 ++ s :: d2) with ((d1 ++ [s]) ++ d2)
      by (rewrite <- app_assoc; reflexivity).
    rewrite (guess_kept guess0 d2 (d1 ++ [s]) Hn).
    unfold guess_for at 1. rewrite sweep_after_snoc. cbv zeta.
    cbn [current_guess]. unfold next_guess. rewrite Hc. reflexivity.
  - intros Hn. apply (guess_kept guess0 done [] Hn).
Qed.

(** C8.  When [analytical_solution] returns [None] in either component for
    the first sample, the sweep starts from the fixed guess of 45 degrees
    for both angles, converted to radians; the solver is still run for the
    first sample, from that guess, and the first element of each output
    list is what that solve yields: its angles in degrees when it
    converged, NaN when it did not. *)
Theorem sweep_first_sample_fallback (theta2_first : F) (theta2_rest : list F) :
  let a := analytical_solution r1 r2 r3 r4 theta2_first in
  let fallback := (fradians (of_int 45), fradians (of_int 45)) in
  let out := newton_raphson_4bar r1 r2 r3 r4 theta2_first fallback false in
  fst a = None \/ snd a = None ->
  first_guess r1 r2 r3 r4 theta2_first = fallback /\
  exists rest3 rest4,
    position_sweep r1 r2 r3 r4 theta2_first theta2_rest
    = ((if converged out then fdegrees (theta3 out) else fnan) :: rest3,
       (if converged out then fdegrees (theta4 out) else fnan) :: rest4) /\
    length rest3 = length theta2_rest /\
    length rest4 = length theta2_rest.
Proof.
  intros a fallback out Hnone.
  assert (Hg : first_guess r1 r2 r3 r4 theta2_first = fallback).
  { unfold first_guess. fold a.
    destruct a as [[t3|] [t4|]]; simpl in Hnone;
      try reflexivity; destruct Hnone; discriminate. }
  split; [exact Hg|].
  rewrite position_sweep_unfold. cbv zeta. rewrite Hg.
  unfold sweep_after.
  change (sweep_loop r1 r2 r3 r4 (theta2_first :: theta2_rest)
            (mkSweep fallback [] []))
    with (loop theta2_rest (sbody (mkSweep fallback [] []) theta2_first)).
  destruct (sweep_loop_extends theta2_rest
              (sbody (mkSweep fallback [] []) theta2_first))
    as (e3 & e4 & H3 & H4 & L3 & L4).
  rewrite H3, H4, sweep_body_unfold. cbv zeta.
  cbn [theta3_sol theta4_sol current_guess app]. fold out.
  exists e3, e4. unfold recorded.
  destruct (converged out); cbn [fst snd]; auto.
Qed.

End SweepTheorems.

(** * Worked examples on binary64 *)

(** The properties above, applied to runs of the program on binary64
    numbers.  The link lengths [6, 2, 5, 5] are those of the source. *)

Section Binary64Examples.
Local Open Scope float_scope.
#[local] Existing Instance Binary64.ops.
#[local] Existing Instance Binary64.nan64.

Local Abbreviation solve64 := (newton_raphson_4bar (ops := Binary64.ops)).
Local Abbreviation analytic64 := (analytical_solution (ops := Binary64.ops)).

(** From the guess [(0.5, 2)] at [theta2 = 45] degrees the solver meets the
    tolerance at the start of its fifth iteration. *)
Lemma newton_converged_witness :
  converged (solve64 6 2 5 5 45 (0.5, 2) true) = true /\
  (theta3 (solve64 6 2 5 5 45 (0.5, 2) true),
   theta4 (solve64 6 2 5 5 45 (0.5, 2) true))
  = iterate (ops := Binary64.ops) 6 2 5 5 (fradians 45) 4 (0.5, 2).
Proof.
  pose proof (newton_converged_iff (ops := Binary64.ops)
                6 2 5 5 45 (0.5, 2) true) as [Hiff Hangles].
  assert (Hr : reached (ops := Binary64.ops) 6 2 5 5 (fradians 45) 4
                 (0.5, 2))
    by (apply reachedb_spec; vm_compute; reflexivity).
  split.
  - apply Hiff. exists 4%nat.
    split; [lia|]. split; [exact Hr|]. split; vm_compute; reflexivity.
  - apply (Hangles 4%nat); [lia | exact Hr | |]; vm_compute; reflexivity.
Defined.

(** The guess [(1, 1)] has [theta3 = theta4]: the determinant vanishes in
    the first iteration. *)
Lemma newton_singular_witness :
  let out := solve64 6 2 5 5 45 (1, 1) true in
  converged out = false /\
  (theta3 out, theta4 out)
  = iterate (ops := Binary64.ops) 6 2 5 5 (fradians 45) 0 (1, 1) /\
  history out
  = Some (entries (ops := Binary64.ops) 6 2 5 5 (fradians 45) 0 1 (1, 1)).
Proof.
  apply (newton_singular_returns (ops := Binary64.ops)
           6 2 5 5 45 (1, 1) true 0).
  - lia.
  - intros j Hj. lia.
  - vm_compute. reflexivity.
  - vm_compute. reflexivity.
Defined.

(** Links [10, 1, 1, 1] cannot close the loop: from the guess [(1, 2)] all
    100 iterations perform their update. *)
Lemma newton_exhausted_witness :
  let out := solve64 10 1 1 1 0 (1, 2) false in
  converged out = false /\
  (theta3 out, theta4 out)
  = iterate (ops := Binary64.ops) 10 1 1 1 (fradians 0) 100 (1, 2).
Proof.
  apply (proj2 (newton_terminates_within_max_iter (ops := Binary64.ops)
                  10 1 1 1 0 (1, 2) false)).
  intros k Hk.
  assert (Hr : reached (ops := Binary64.ops) 10 1 1 1 (fradians 0) 100
                 (1, 2))
    by (apply reachedb_spec; vm_compute; reflexivity).
  apply (proj1 (proceeds_true_iff (ops := Binary64.ops) 10 1 1 1 0 _)).
  apply Hr. exact Hk.
Defined.

(** The run of the first example examines five iterations. *)
Lemma history_witness :
  exists h,
    history (solve64 6 2 5 5 45 (0.5, 2) true) = Some h /\
    length h = 5%nat /\
    nth_error h 4
    = Some (4%nat,
            error_norm_at (ops := Binary64.ops) 6 2 5 5 (fradians 45)
              (iterate (ops := Binary64.ops) 6 2 5 5 (fradians 45) 4
                       (0.5, 2))).
Proof.
  destruct (history_one_entry_per_iteration (ops := Binary64.ops)
              6 2 5 5 45 (0.5, 2)) as (h & Hh & Hlen & _ & Hnth & _).
  assert (H5 : length h = 5%nat) by (rewrite Hlen; vm_compute; reflexivity).
  exists h. split; [exact Hh|]. split; [exact H5|].
  apply Hnth. rewrite H5. lia.
Defined.


(** Links [6, 2, 1, 1]: no closed-form guess at [theta2 = 0], so the sweep
    over [0, 1, 2] degrees starts from the fixed guess. *)
Lemma sweep_fallback_witness :
  let fallback := (fradians (of_int 45), fradians (of_int 45)) in
  let out := solve64 6 2 1 1 0 fallback false in
  first_guess 6 2 1 1 0 = fallback /\
  exists rest3 rest4,
    position_sweep 6 2 1 1 0 [1; 2]
    = ((if converged out then fdegrees (theta3 out) else fnan) :: rest3,
       (if converged out then fdegrees (theta4 out) else fnan) :: rest4) /\
    length rest3 = length [1; 2] /\
    length rest4 = length [1; 2].
Proof.
  apply (sweep_first_sample_fallback (ops := Binary64.ops) 6 2 1 1 0 [1; 2]).
  left. vm_compute. reflexivity.
Defined.

(** Links [1, 4, 2, 2], samples 0, 180 and 5 degrees: the first sample
    converges, the second does not and is stored as NaN, and the third is
    started from the angles found for the first. *)
Lemma sweep_warm_start_witness :
  let guess0 := first_guess 1 4 2 2 0 in
  let out0 := outcome_for 1 4 2 2 guess0 [] 0 in
  nth_error (fst (position_sweep 1 4 2 2 0 [180; 5])) 1 = Some nan /\
  guess_for 1 4 2 2 guess0 [0; 180] = (theta3 out0, theta4 out0).
Proof.
  cbv zeta. split.
  - destruct (sweep_warm_start (ops := Binary64.ops) 1 4 2 2
                0 [180; 5] [0] [5] 180 eq_refl) as (H3 & _).
    cbn [length] in H3. rewrite H3. vm_compute. reflexivity.
  - destruct (sweep_warm_start (ops := Binary64.ops) 1 4 2 2
                0 [180; 5] [0; 180] [] 5 eq_refl) as (_ & _ & _ & Hrecent & _).
    apply (Hrecent [] 0 [180]).
    + reflexivity.
    + vm_compute. reflexivity.
    + intros p x q E. destruct p as [|y p].
      * injection E as <- _. vm_compute. reflexivity.
      * injection E as _ E. destruct p; discriminate E.
Defined.

End Binary64Examples.

(** * A worked example in exact arithmetic *)

Section RealExample.
Local Open Scope R_scope.


End RealExample.

(** * The rest of the program *)

(** ** generate_figure_b and generate_combined_figure *)

Section Figures.
Context {F : Type} {ops : FloatOps F} {nanF : FloatNaN F}.
Local Open Scope fl_scope.

(** Lines 225-230: the analytical solution displaced by 20 degrees on each
    angle, or 60 degrees for both angles when it is not available. *)
Definition offset_guess (r1 r2 r3 r4 test_theta2 : F) : F * F :=
  let '(t3_true, t4_true) := analytical_solution r1 r2 r3 r4 test_theta2 in
  match t3_true, t4_true with
  | Some t3, Some t4 =>
      (t3 + fradians (of_int 20), t4 + fradians (of_int 20))
  | _, _ => (fradians (of_int 60), fradians (of_int 60))
  end.

(** [errors[-1]]: the last element of a list, [None] standing for the
    [IndexError] Python raises on an empty one. *)
Definition last_item {A : Type} (l : list A) : option A :=
  match rev l with
  | [] => None
  | x :: _ => Some x
  end.

(** What a call of [generate_figure_b] does with the outcome of its solve. *)
Inductive FigureB : Type :=
| Skipped
    (* [if history:] found the history empty: nothing is drawn or printed *)
| IndexRaised
    (* [errors[-1]] raised *)
| Reported (iterations : list nat) (errors : list F)
           (theta3_deg theta4_deg : F) (total_iterations : nat)
           (final_error : F).
    (* the data of the plot and the four numbers printed *)

(** Lines 225-296, for the link lengths and the test angle given: the solve
    with [track_convergence=True], the test [if history:], the two list
    comprehensions, and the values the text box and the [print] calls
    show. *)
Definition convergence_analysis (r1 r2 r3 r4 test_theta2 : F) : FigureB :=
  let init_guess := offset_guess r1 r2 r3 r4 test_theta2 in
  let out := newton_raphson_4bar r1 r2 r3 r4 test_theta2 init_guess true in
  let t3 := theta3 out in
  let t4 := theta4 out in
  match history out with
  | None => Skipped
  | Some [] => Skipped
  | Some history =>
      let iterations := map fst history in
      let errors := map snd history in
      match last_item errors with
      | None => IndexRaised
      | Some final_error =>
          Reported iterations errors (fdegrees t3) (fdegrees t4)
                   (length iterations) final_error
      end
  end.

(** [generate_figure_b()]: [r1, r2, r3, r4 = 6.0, 2.0, 5.0, 5.0] and
    [test_theta2 = 45.0]. *)
Definition generate_figure_b : FigureB :=
  convergence_analysis (of_int 6) (of_int 2) (of_int 5) (of_int 5) (of_int 45).

(** The sweep of [generate_combined_figure()], lines 306-328: the code of
    lines 155-179 once more, on the same lengths and samples. *)
Definition combined_figure_sweep : list F * list F :=
  let r1 := of_int 6 in
  let r2 := of_int 2 in
  let r3 := of_int 5 in
  let r4 := of_int 5 in
  let theta2_first := of_int 0 in
  let theta2_range :=
    theta2_first :: map (fun i => of_int (Z.of_nat i)) (seq 1 360) in
  let current_guess := first_guess r1 r2 r3 r4 theta2_first in
  let st := sweep_loop r1 r2 r3 r4 theta2_range (mkSweep current_guess [] []) in
  (theta3_sol st, theta4_sol st).

End Figures.

Arguments FigureB F : clear implicits.

(** ** Further properties of newton_raphson_4bar *)

Section SolverExtras.
Context {F : Type} {ops : FloatOps F}.
Variables r1 r2 r3 r4 theta2_deg : F.
Variable init_guess : F * F.

Local Abbreviation theta2 := (fradians theta2_deg).

(** The outcome is one of the two the loop lemmas describe. *)
Lemma solve_cases track :
  (exists k, (k < max_iter)%nat /\
     reached r1 r2 r3 r4 theta2 k init_guess /\
     proceeds r1 r2 r3 r4 theta2 (iterate r1 r2 r3 r4 theta2 k init_guess)
     = false /\
     newton_raphson_4bar r1 r2 r3 r4 theta2_deg init_guess track
     = outcome_of track (iterate r1 r2 r3 r4 theta2 k init_guess)
         (within_tol r1 r2 r3 r4 theta2
            (iterate r1 r2 r3 r4 theta2 k init_guess))
         (if track
          then Some (entries r1 r2 r3 r4 theta2 0 (S k) init_guess)
          else None)) \/
  (reached r1 r2 r3 r4 theta2 max_iter init_guess /\
   newton_raphson_4bar r1 r2 r3 r4 theta2_deg init_guess track
   = outcome_of track (iterate r1 r2 r3 r4 theta2 max_iter init_guess) false
       (if track
        then Some (entries r1 r2 r3 r4 theta2 0 max_iter init_guess)
        else None)).
Proof.
  destruct (first_stop r1 r2 r3 r4 theta2 max_iter init_guess)
    as [Hr | (k & Hk & Hr & Hg)].
  - right. split; [exact Hr|]. apply solve_exhausts. exact Hr.
  - left. exists k. repeat split; try assumption.
    apply solve_stops; assumption.
Qed.

(** A converged outcome carries angles within the tolerance. *)
Lemma converged_in_tol track :
  converged (newton_raphson_4bar r1 r2 r3 r4 theta2_deg init_guess track)
  = true ->
  within_tol r1 r2 r3 r4 theta2
    (theta3 (newton_raphson_4bar r1 r2 r3 r4 theta2_deg init_guess track),
     theta4 (newton_raphson_4bar r1 r2 r3 r4 theta2_deg init_guess track))
  = true.
Proof.
  intros Hc.
  destruct (solve_cases track) as [(k & _ & _ & _ & E) | (_ & E)];
    rewrite E in Hc |- *; rewrite converged_outcome_of in Hc.
  - rewrite angles_outcome_of. exact Hc.
  - discriminate Hc.
Qed.

(** X1.  The angles of a converged outcome satisfy both residual tests:
    substituted into [f1] and [f2] they give [|f1| < 1e-9] and
    [|f2| < 1e-9]. *)
Theorem converged_angles_within_tolerance track :
  let out := newton_raphson_4bar r1 r2 r3 r4 theta2_deg init_guess track in
  converged out = true ->
  (fabs (residual_f1 r1 r2 r3 r4 theta2 (theta3 out, theta4 out))
     <? lit_1e_9)%fl = true /\
  (fabs (residual_f2 r2 r3 r4 theta2 (theta3 out, theta4 out))
     <? lit_1e_9)%fl = true.
Proof.
  cbv zeta. intros Hc. apply converged_in_tol in Hc.
  unfold within_tol in Hc. apply andb_true_iff in Hc. exact Hc.
Qed.

(** X2.  Recording the history does not change the computation: with and
    without [track_convergence] the solver returns the same angles and the
    same flag, and without it no history. *)
Theorem tracking_does_not_change_outcome :
  let tracked := newton_raphson_4bar r1 r2 r3 r4 theta2_deg init_guess true in
  let plain := newton_raphson_4bar r1 r2 r3 r4 theta2_deg init_guess false in
  theta3 plain = theta3 tracked /\
  theta4 plain = theta4 tracked /\
  converged plain = converged tracked /\
  history plain = None.
Proof.
  cbv zeta.
  destruct (first_stop r1 r2 r3 r4 theta2 max_iter init_guess)
    as [Hr | (k & Hk & Hr & Hg)].
  - rewrite !(solve_exhausts r1 r2 r3 r4 theta2_deg init_guess _ Hr).
    repeat split.
  - rewrite !(solve_stops r1 r2 r3 r4 theta2_deg init_guess _ k Hk Hr Hg).
    repeat split.
Qed.

(** The solver started within the tolerance returns its guess at once. *)
Lemma solve_within_tol track :
  within_tol r1 r2 r3 r4 theta2 init_guess = true ->
  newton_raphson_4bar r1 r2 r3 r4 theta2_deg init_guess track
  = outcome_of track init_guess true
      (if track
       then Some [(0%nat, error_norm_at r1 r2 r3 r4 theta2 init_guess)]
       else None).
Proof.
  intros Ht.
  rewrite (solve_stops r1 r2 r3 r4 theta2_deg init_guess track 0).
  - simpl. rewrite Ht. reflexivity.
  - unfold max_iter. lia.
  - intros j Hj. lia.
  - simpl. apply proceeds_false_iff. left. exact Ht.
Qed.

End SolverExtras.

Section SolverResolve.
Context {F : Type} {ops : FloatOps F}.
Variables r1 r2 r3 r4 theta2_deg : F.

(** X3.  Solving again from the angles of a converged outcome, for the same
    lengths and input angle, changes nothing: the second solve converges in
    its first iteration and returns the same angles, with a history of one
    entry when it records one. *)
Theorem solve_again_is_immediate (init_guess : F * F) (track track' : bool) :
  let out := newton_raphson_4bar r1 r2 r3 r4 theta2_deg init_guess track in
  let again :=
    newton_raphson_4bar r1 r2 r3 r4 theta2_deg
                        (theta3 out, theta4 out) track' in
  converged out = true ->
  converged again = true /\
  theta3 again = theta3 out /\
  theta4 again = theta4 out /\
  history again
  = if track'
    then Some [(0%nat,
                error_norm_at r1 r2 r3 r4 (fradians theta2_deg)
                              (theta3 out, theta4 out))]
    else None.
Proof.
  intros out again Hc.
  pose proof (converged_in_tol r1 r2 r3 r4 theta2_deg init_guess track Hc)
    as Ht.
  fold out in Ht. unfold again.
  rewrite (solve_within_tol r1 r2 r3 r4 theta2_deg _ track' Ht).
  unfold outcome_of. destruct track'; repeat split.
Qed.

End SolverResolve.

(** ** Properties of convergence_analysis *)

Section FigureBTheorems.
Context {F : Type} {ops : FloatOps F}.
Variables r1 r2 r3 r4 theta2 : F.

Local Abbreviation step := (newton_step r1 r2 r3 r4 theta2).
Local Abbreviation iter := (iterate r1 r2 r3 r4 theta2).
Local Abbreviation err := (error_norm_at r1 r2 r3 r4 theta2).
Local Abbreviation ents := (entries r1 r2 r3 r4 theta2).

Lemma entries_indices i n a : map fst (ents i n a) = seq i n.
Proof.
  revert i a. induction n as [|n IH]; intros i a; simpl;
    [|rewrite IH]; reflexivity.
Qed.

Lemma entries_errors i n a :
  map snd (ents i n a) = map (fun j => err (iter j a)) (seq 0 n).
Proof.
  revert i a. induction n as [|n IH]; intros i a; [reflexivity|].
  cbn [entries map snd seq]. rewrite IH, <- seq_shift, map_map. reflexivity.
Qed.

Lemma last_item_snoc {A : Type} (l : list A) (x : A) :
  last_item (l ++ [x]) = Some x.
Proof. unfold last_item. rewrite rev_app_distr. reflexivity. Qed.

Lemma entries_last_error i n a :
  last_item (map snd (ents i (S n) a)) = Some (err (iter n a)).
Proof.
  rewrite entries_snoc, map_app. cbn [map snd]. apply last_item_snoc.
Qed.

Lemma examined_bounds fuel a :
  (1 <= S fuel)%nat ->
  (1 <= examined r1 r2 r3 r4 theta2 (S fuel) a <= S fuel)%nat.
Proof.
  intros _. revert a. induction fuel as [|fuel IH]; intros a.
  - simpl. destruct (proceeds r1 r2 r3 r4 theta2 a); lia.
  - change (examined r1 r2 r3 r4 theta2 (S (S fuel)) a)
      with (if proceeds r1 r2 r3 r4 theta2 a
            then S (examined r1 r2 r3 r4 theta2 (S fuel) (step a))
            else 1%nat).
    destruct (proceeds r1 r2 r3 r4 theta2 a); [|lia].
    specialize (IH (step a)). lia.
Qed.

End FigureBTheorems.

Section FigureBReport.
Context {F : Type} {ops : FloatOps F}.
Variables r1 r2 r3 r4 test_theta2 : F.

Local Abbreviation theta2 := (fradians test_theta2).

(** The tracked history of a solve, and where its angles come from. *)
Lemma tracked_history (guess : F * F) :
  let out := newton_raphson_4bar r1 r2 r3 r4 test_theta2 guess true in
  let n := examined r1 r2 r3 r4 theta2 100 guess in
  history out = Some (entries r1 r2 r3 r4 theta2 0 n guess) /\
  (converged out = true \/ (n < 100)%nat ->
   (theta3 out, theta4 out) = iterate r1 r2 r3 r4 theta2 (n - 1) guess).
Proof.
  cbv zeta.
  destruct (solve_cases r1 r2 r3 r4 test_theta2 guess true)
    as [(k & Hk & Hr & Hg & E) | (Hr & E)]; rewrite E.
  - rewrite (examined_stops r1 r2 r3 r4 theta2 100 k guess Hk Hr Hg).
    split; [reflexivity|]. intros _.
    replace (S k - 1)%nat with k by lia. apply angles_outcome_of.
  - rewrite (examined_exhausts r1 r2 r3 r4 theta2 100 guess Hr).
    split; [reflexivity|]. intros [Hc | Hn]; [discriminate Hc | lia].
Qed.

(** X4.  [generate_figure_b] always reaches its plot: the history it tests
    is never empty and [errors[-1]] never fails.  The iteration numbers it
    plots are [0, ..., n-1] with [n] between 1 and 100, the errors are the
    error norms of the successive Newton iterates, and the final error it
    prints is the one of iterate [n-1]; that is the error norm of the angles
    it prints whenever the solve converged or stopped before the cap. *)
Theorem convergence_analysis_reports :
  let guess := offset_guess r1 r2 r3 r4 test_theta2 in
  let out := newton_raphson_4bar r1 r2 r3 r4 test_theta2 guess true in
  let n := examined r1 r2 r3 r4 theta2 100 guess in
  let error_of j :=
    error_norm_at r1 r2 r3 r4 theta2 (iterate r1 r2 r3 r4 theta2 j guess) in
  (1 <= n <= 100)%nat /\
  convergence_analysis r1 r2 r3 r4 test_theta2
  = Reported (seq 0 n) (map error_of (seq 0 n))
             (fdegrees (theta3 out)) (fdegrees (theta4 out))
             n (error_of (n - 1)%nat) /\
  (converged out = true \/ (n < 100)%nat ->
   error_of (n - 1)%nat
   = error_norm_at r1 r2 r3 r4 theta2 (theta3 out, theta4 out)).
Proof.
  intros guess out n error_of.
  pose proof (examined_bounds r1 r2 r3 r4 theta2 99 guess) as Hn.
  fold n in Hn. specialize (Hn ltac:(lia)).
  destruct (tracked_history guess) as [Hh Ha]. fold out n in Hh, Ha.
  split; [exact Hn|]. split.
  - unfold convergence_analysis. fold guess out. rewrite Hh.
    destruct n as [|m] eqn:En; [lia|].
    cbn [entries]. cbv zeta.
    change ((0%nat, error_norm_at r1 r2 r3 r4 theta2 guess)
            :: entries r1 r2 r3 r4 theta2 1 m
                 (newton_step r1 r2 r3 r4 theta2 guess))
      with (entries r1 r2 r3 r4 theta2 0 (S m) guess).
    rewrite entries_last_error, entries_indices, entries_errors.
    rewrite length_seq. replace (S m - 1)%nat with m by lia. reflexivity.
  - intros H. unfold error_of. rewrite (Ha H). reflexivity.
Qed.

End FigureBReport.

(** ** Further properties of the sweep *)

Section SweepExtras.
Context {F : Type} {ops : FloatOps F} {nanF : FloatNaN F}.
Variables r1 r2 r3 r4 : F.

(** X5.  The sweep returns one entry per sample in each of its two lists,
    in the order of the samples. *)
Theorem position_sweep_lengths (theta2_first : F) (theta2_rest : list F) :
  let result := position_sweep r1 r2 r3 r4 theta2_first theta2_rest in
  length (fst result) = S (length theta2_rest) /\
  length (snd result) = S (length theta2_rest).
Proof.
  cbv zeta. rewrite position_sweep_unfold. cbv zeta. cbn [fst snd].
  apply (sweep_after_lengths r1 r2 r3 r4 _ (theta2_first :: theta2_rest)).
Qed.

(** X6.  What the sweep stores for a sample does not depend on the samples
    after it: the result for a longer sequence extends the result for the
    shorter one, by one entry per added sample. *)
Theorem position_sweep_extends (theta2_first : F) (theta2_rest more : list F) :
  let short := position_sweep r1 r2 r3 r4 theta2_first theta2_rest in
  let long := position_sweep r1 r2 r3 r4 theta2_first (theta2_rest ++ more) in
  exists e3 e4,
    fst long = fst short ++ e3 /\
    snd long = snd short ++ e4 /\
    length e3 = length more /\
    length e4 = length more.
Proof.
  cbv zeta. rewrite !position_sweep_unfold. cbv zeta. cbn [fst snd].
  unfold sweep_after.
  change (theta2_first :: theta2_rest ++ more)
    with ((theta2_first :: theta2_rest) ++ more).
  rewrite sweep_loop_app. apply sweep_loop_extends.
Qed.

(** X7.  Every position of the result holds either NaN in both lists, or
    in both lists an angle in degrees, of a pair of angles that satisfies
    the two residual tests at the sample of that position. *)
Theorem sweep_entries_are_roots_or_nan
  (theta2_first : F) (theta2_rest done later : list F) (t2 : F) :
  let result := position_sweep r1 r2 r3 r4 theta2_first theta2_rest in
  theta2_first :: theta2_rest = done ++ t2 :: later ->
  (nth_error (fst result) (length done) = Some fnan /\
   nth_error (snd result) (length done) = Some fnan) \/
  (exists a3 a4,
     nth_error (fst result) (length done) = Some (fdegrees a3) /\
     nth_error (snd result) (length done) = Some (fdegrees a4) /\
     (fabs (residual_f1 r1 r2 r3 r4 (fradians t2) (a3, a4))
        <? lit_1e_9)%fl = true /\
     (fabs (residual_f2 r2 r3 r4 (fradians t2) (a3, a4))
        <? lit_1e_9)%fl = true).
Proof.
  intros result Hsplit.
  set (guess0 := first_guess r1 r2 r3 r4 theta2_first).
  destruct (sweep_records r1 r2 r3 r4 guess0 done t2 later) as [R3 R4].
  assert (Hres : result =
            (theta3_sol (sweep_after r1 r2 r3 r4 guess0 (done ++ t2 :: later)),
             theta4_sol (sweep_after r1 r2 r3 r4 guess0 (done ++ t2 :: later)))).
  { unfold result. rewrite position_sweep_unfold. cbv zeta.
    fold guess0. rewrite Hsplit. reflexivity. }
  rewrite Hres. cbn [fst snd]. rewrite R3, R4. unfold recorded.
  destruct (converged (outcome_for r1 r2 r3 r4 guess0 done t2)) eqn:Hc.
  - right.
    exists (theta3 (outcome_for r1 r2 r3 r4 guess0 done t2)),
           (theta4 (outcome_for r1 r2 r3 r4 guess0 done t2)).
    split; [reflexivity|]. split; [reflexivity|].
    apply andb_true_iff. apply (converged_in_tol _ _ _ _ _ _ _ Hc).
  - left. split; reflexivity.
Qed.

(** [generate_combined_figure] sweeps exactly as [generate_figure_a]. *)
Lemma combined_figure_sweep_same :
  combined_figure_sweep = generate_figure_a.
Proof. reflexivity. Qed.

End SweepExtras.

(** ** The program in exact arithmetic *)

Section RealExtras.
Local Open Scope R_scope.
#[local] Existing Instance RealModel.ops.

Ltac real_ops :=
  cbn [fadd fsub fmul fdiv fneg fabs fsquare fsqrt fcos fsin farctan
       fradians fdegrees fltb of_int lit_1e_9 RealModel.ops].

(** X8.  The determinant the solver tests is [r3 r4 sin (theta3 - theta4)]:
    the Jacobian is singular when the coupler and the rocker are parallel. *)
Theorem jac_det_is_sine (r3 r4 theta3 theta4 : R) :
  jac_det r3 r4 (theta3, theta4) = r3 * r4 * sin (theta3 - theta4).
Proof.
  unfold jac_det, jac11, jac12, jac21, jac22. real_ops. cbn [fst snd].
  rewrite sin_minus. ring.
Qed.

End RealExtras.

Section RealAnalytical.
Local Open Scope R_scope.
#[local] Existing Instance RealModel.ops.

Ltac real_arith :=
  cbn [fadd fsub fmul fdiv fneg fabs fsquare fsqrt fcos fsin farctan
       fradians fdegrees fltb of_int lit_1e_9 RealModel.ops].

(** The two roots of [a u^2 + b u + c], given a square root [s] of the
    discriminant. *)
Lemma quadratic_root_plus (a b c s : R) :
  a <> 0 -> s * s = b * b - 4 * a * c ->
  let u := (- b + s) / (2 * a) in
  a * (u * u) + b * u + c = 0.
Proof.
  intros Ha Hs u.
  replace (a * (u * u) + b * u + c)
    with ((s * s - (b * b - 4 * a * c)) / (4 * a))
    by (unfold u; field; exact Ha).
  rewrite Hs. unfold Rdiv. ring.
Qed.

Lemma quadratic_root_minus (a b c s : R) :
  a <> 0 -> s * s = b * b - 4 * a * c ->
  let u := (- b - s) / (2 * a) in
  a * (u * u) + b * u + c = 0.
Proof.
  intros Ha Hs u.
  replace (a * (u * u) + b * u + c)
    with ((s * s - (b * b - 4 * a * c)) / (4 * a))
    by (unfold u; field; exact Ha).
  rewrite Hs. unfold Rdiv. ring.
Qed.

Lemma tan_half_double_atan (u : R) : tan (2 * atan u / 2) = u.
Proof.
  replace (2 * atan u / 2) with (atan u) by lra. apply tan_atan.
Qed.

(** X11.  In exact arithmetic the angle [theta4] the initialiser takes is
    a solution of the quadratic it sets up: with [t = tan (theta4 / 2)],
    [A t^2 + B t + C = 0], provided [A] is not zero and the discriminant is
    not negative. *)
Theorem theta4_solves_its_quadratic (r1 r2 r3 r4 theta2_deg : R) :
  let A := coef_A r1 r2 r3 r4 theta2_deg in
  let B := coef_B theta2_deg in
  let C := coef_C r1 r2 r3 r4 theta2_deg in
  let t := tan (theta4_open r1 r2 r3 r4 theta2_deg / 2) in
  A <> 0 ->
  0 <= discriminant r1 r2 r3 r4 theta2_deg ->
  A * (t * t) + B * t + C = 0.
Proof.
  intros A B C t HA Hd. unfold t, theta4_open. real_arith.
  rewrite tan_half_double_atan. fold A B.
  apply quadratic_root_plus; [exact HA|].
  rewrite sqrt_sqrt by exact Hd. reflexivity.
Qed.

(** X12.  Likewise the angle [theta3] it returns solves the second
    quadratic: with [t = tan (theta3 / 2)], [D t^2 + E t + F = 0], provided
    [D] is not zero and the second discriminant is not negative. *)
Theorem theta3_solves_its_quadratic (r1 r2 r3 r4 theta2_deg : R) :
  let D := coef_D r1 r2 r3 r4 theta2_deg in
  let E := coef_E theta2_deg in
  let F' := coef_F r1 r2 r3 r4 theta2_deg in
  let t := tan (theta3_branch r1 r2 r3 r4 theta2_deg / 2) in
  D <> 0 ->
  0 <= discriminant2 r1 r2 r3 r4 theta2_deg ->
  D * (t * t) + E * t + F' = 0.
Proof.
  intros D E F' t HD Hd. unfold t, theta3_branch. real_arith.
  rewrite tan_half_double_atan. fold D E.
  apply quadratic_root_minus; [exact HD|].
  rewrite sqrt_sqrt by exact Hd. reflexivity.
Qed.

(** X14.  In exact arithmetic the error norm of a converged outcome is
    below [sqrt 2 * 1e-9]: each residual is below [1e-9] in absolute value,
    the norm of the pair need not be. *)
Theorem converged_error_norm_bound
  (r1 r2 r3 r4 theta2_deg : R) (init_guess : R * R) (track : bool) :
  let out := newton_raphson_4bar r1 r2 r3 r4 theta2_deg init_guess track in
  converged out = true ->
  0 <= error_norm_at r1 r2 r3 r4 (fradians theta2_deg) (theta3 out, theta4 out)
    < sqrt 2 * / 1000000000.
Proof.
  intros out Hc.
  pose proof (converged_in_tol r1 r2 r3 r4 theta2_deg init_guess track Hc)
    as Ht.
  fold out in Ht. unfold within_tol in Ht.
  apply andb_true_iff in Ht as [H1 H2].
  unfold error_norm_at.
  set (f1 := residual_f1 r1 r2 r3 r4 (fradians theta2_deg)
               (theta3 out, theta4 out)) in *.
  set (f2 := residual_f2 r2 r3 r4 (fradians theta2_deg)
               (theta3 out, theta4 out)) in *.
  revert H1 H2. real_arith. intros H1 H2.
  apply real_ltb_true in H1. apply real_ltb_true in H2.
  apply Rabs_def2 in H1. apply Rabs_def2 in H2.
  split; [apply sqrt_pos|].
  replace (sqrt 2 * / 1000000000)
    with (sqrt (2 * (/ 1000000000 * / 1000000000))).
  - apply sqrt_lt_1; nra.
  - rewrite sqrt_mult by lra. rewrite sqrt_square by lra. reflexivity.
Qed.

End RealAnalytical.

(** ** Worked examples for the further properties *)

Section Binary64Extras.
Local Open Scope float_scope.
#[local] Existing Instance Binary64.ops.
#[local] Existing Instance Binary64.nan64.

Lemma converged_example :
  converged (newton_raphson_4bar 6 2 5 5 45 (0.5, 2) true) = true.
Proof. vm_compute. reflexivity. Qed.

(** The converged run from [(0.5, 2)] returns angles within tolerance. *)
Lemma converged_angles_within_tolerance_witness :
  let out := newton_raphson_4bar 6 2 5 5 45 (0.5, 2) true in
  (fabs (residual_f1 6 2 5 5 (fradians 45) (theta3 out, theta4 out))
     <? lit_1e_9)%fl = true /\
  (fabs (residual_f2 2 5 5 (fradians 45) (theta3 out, theta4 out))
     <? lit_1e_9)%fl = true.
Proof.
  apply (converged_angles_within_tolerance 6 2 5 5 45 (0.5, 2) true).
  exact converged_example.
Defined.

(** Solving again from its result takes one iteration. *)
Lemma solve_again_witness :
  let out := newton_raphson_4bar 6 2 5 5 45 (0.5, 2) true in
  let again := newton_raphson_4bar 6 2 5 5 45 (theta3 out, theta4 out) true in
  converged again = true /\
  theta3 again = theta3 out /\
  theta4 again = theta4 out /\
  history again
  = Some [(0%nat,
           error_norm_at 6 2 5 5 (fradians 45) (theta3 out, theta4 out))].
Proof.
  apply (solve_again_is_immediate 6 2 5 5 45 (0.5, 2) true true).
  exact converged_example.
Defined.

(** The third sample of the sweep over 0, 180 and 5 degrees with links
    [1, 4, 2, 2] is stored, in both lists, as an angle or as NaN. *)
Lemma sweep_entries_witness :
  let result := position_sweep 1 4 2 2 0 [180; 5] in
  (nth_error (fst result) 2 = Some fnan /\
   nth_error (snd result) 2 = Some fnan) \/
  (exists a3 a4,
     nth_error (fst result) 2 = Some (fdegrees a3) /\
     nth_error (snd result) 2 = Some (fdegrees a4) /\
     (fabs (residual_f1 1 4 2 2 (fradians 5) (a3, a4)) <? lit_1e_9)%fl = true /\
     (fabs (residual_f2 4 2 2 (fradians 5) (a3, a4)) <? lit_1e_9)%fl = true).
Proof.
  apply (sweep_entries_are_roots_or_nan 1 4 2 2 0 [180; 5] [0; 180] [] 5).
  reflexivity.
Defined.

End Binary64Extras.

Section RealExtrasExamples.
Local Open Scope R_scope.
#[local] Existing Instance RealModel.ops.

Ltac real_eval :=
  cbn [fadd fsub fmul fdiv fneg fabs fsquare fsqrt fcos fsin farctan
       fradians fdegrees fltb of_int lit_1e_9 RealModel.ops fst snd];
  rewrite ?Rmult_0_l, ?cos_0, ?sin_0.

(** Links [1, 2, 1, 1] at 0 degrees: [A = 3/4] and the discriminant is
    [3/4]. *)
Lemma theta4_quadratic_witness :
  let t := tan (theta4_open 1 2 1 1 0 / 2) in
  coef_A 1 2 1 1 0 * (t * t) + coef_B 0 * t + coef_C 1 2 1 1 0 = 0.
Proof.
  apply (theta4_solves_its_quadratic 1 2 1 1 0).
  - unfold coef_A, K1, K2, K3. real_eval. lra.
  - unfold discriminant, coef_A, coef_B, coef_C, K1, K2, K3. real_eval. lra.
Defined.

(** Links [1, 3, 1, 2] at 0 degrees: [theta4 = 0], [D = 1/2] and the
    second discriminant is [5/3]. *)
Lemma theta4_zero_example : theta4_open 1 3 1 2 0 = 0.
Proof.
  unfold theta4_open.
  assert (Hd : discriminant 1 3 1 2 0 = 0).
  { unfold discriminant, coef_A, coef_B, coef_C, K1, K2, K3. real_eval.
    field. }
  assert (HB : coef_B 0 = 0) by (unfold coef_B; real_eval; lra).
  rewrite Hd, HB. real_eval. rewrite sqrt_0.
  replace ((- 0 + 0) / (2 * coef_A 1 3 1 2 0)) with 0
    by (unfold Rdiv; ring).
  rewrite atan_0. ring.
Qed.

Lemma theta3_quadratic_witness :
  let t := tan (theta3_branch 1 3 1 2 0 / 2) in
  coef_D 1 3 1 2 0 * (t * t) + coef_E 0 * t + coef_F 1 3 1 2 0 = 0.
Proof.
  apply (theta3_solves_its_quadratic 1 3 1 2 0).
  - unfold coef_D. rewrite theta4_zero_example.
    unfold K1, K4, K5. real_eval. lra.
  - unfold discriminant2, coef_D, coef_E, coef_F.
    rewrite theta4_zero_example. unfold K1, K4, K5. real_eval. lra.
Defined.

(** Links [2, 1, 2, 1] at 0 degrees close the loop with both angles 0. *)
Lemma real_converged_example :
  converged (newton_raphson_4bar 2 1 2 1 0 (0, 0) false) = true.
Proof.
  rewrite solve_within_tol; [reflexivity|].
  unfold within_tol, residual_f1, residual_f2. real_eval.
  apply andb_true_iff. split; apply real_ltb_true.
  - replace (1 * 1 + 2 * 1 - 1 * 1 - 2) with 0 by lra. rewrite Rabs_R0. lra.
  - replace (1 * 0 + 2 * 0 - 1 * 0) with 0 by lra. rewrite Rabs_R0. lra.
Qed.

Lemma converged_error_norm_witness :
  let out := newton_raphson_4bar 2 1 2 1 0 (0, 0) false in
  0 <= error_norm_at 2 1 2 1 (fradians 0) (theta3 out, theta4 out)
    < sqrt 2 * / 1000000000.
Proof.
  apply (converged_error_norm_bound 2 1 2 1 0 (0, 0) false).
  exact real_converged_example.
Defined.

End RealExtrasExamples.

(** ** A repeated sample *)

Section SweepRepeat.
Context {F : Type} {ops : FloatOps F} {nanF : FloatNaN F}.
Variables r1 r2 r3 r4 : F.

(** Solving the sample just solved again gives the same record and the
    same next guess. *)
Lemma solve_repeat (g : F * F) (t2 : F) :
  let o := newton_raphson_4bar r1 r2 r3 r4 t2 g false in
  let g' := next_guess g o in
  let o' := newton_raphson_4bar r1 r2 r3 r4 t2 g' false in
  recorded o' = recorded o /\ next_guess g' o' = g'.
Proof.
  intros o g' o'. unfold o', g', next_guess, recorded.
  destruct (converged o) eqn:Hc.
  - pose proof (converged_in_tol r1 r2 r3 r4 t2 g false Hc) as Ht.
    fold o in Ht.
    rewrite (solve_within_tol r1 r2 r3 r4 t2 _ false Ht).
    split; reflexivity.
  - fold o. rewrite Hc. split; reflexivity.
Qed.

Lemma outcome_for_repeat (guess0 : F * F) (done : list F) (t2 : F) :
  recorded (outcome_for r1 r2 r3 r4 guess0 (done ++ [t2]) t2)
  = recorded (outcome_for r1 r2 r3 r4 guess0 done t2) /\
  guess_for r1 r2 r3 r4 guess0 ((done ++ [t2]) ++ [t2])
  = guess_for r1 r2 r3 r4 guess0 (done ++ [t2]).
Proof.
  assert (Hg : guess_for r1 r2 r3 r4 guess0 (done ++ [t2])
               = next_guess (guess_for r1 r2 r3 r4 guess0 done)
                            (outcome_for r1 r2 r3 r4 guess0 done t2))
    by (unfold guess_for at 1; rewrite sweep_after_snoc; reflexivity).
  destruct (solve_repeat (guess_for r1 r2 r3 r4 guess0 done) t2)
    as [Hrec Hnext].
  fold (outcome_for r1 r2 r3 r4 guess0 done t2) in Hrec, Hnext.
  rewrite <- Hg in Hrec, Hnext.
  fold (outcome_for r1 r2 r3 r4 guess0 (done ++ [t2]) t2) in Hrec, Hnext.
  split; [exact Hrec|].
  unfold guess_for at 1. rewrite sweep_after_snoc. exact Hnext.
Qed.

(** X15.  A sample that occurs twice in a row is stored twice alike: the
    second solve starts from the result of the first, or from the same
    guess when the first failed, and yields the same entry in both lists;
    the guess handed on is the same as after the first. *)
Theorem repeated_sample_same_entry
  (theta2_first : F) (theta2_rest done later : list F) (t2 : F) :
  let result := position_sweep r1 r2 r3 r4 theta2_first theta2_rest in
  let guess0 := first_guess r1 r2 r3 r4 theta2_first in
  theta2_first :: theta2_rest = done ++ t2 :: t2 :: later ->
  nth_error (fst result) (S (length done))
  = nth_error (fst result) (length done) /\
  nth_error (snd result) (S (length done))
  = nth_error (snd result) (length done) /\
  guess_for r1 r2 r3 r4 guess0 (done ++ [t2; t2])
  = guess_for r1 r2 r3 r4 guess0 (done ++ [t2]).
Proof.
  intros result guess0 Hsplit.
  assert (Hres : result =
            (theta3_sol (sweep_after r1 r2 r3 r4 guess0
                           (done ++ t2 :: t2 :: later)),
             theta4_sol (sweep_after r1 r2 r3 r4 guess0
                           (done ++ t2 :: t2 :: later)))).
  { unfold result. rewrite position_sweep_unfold. cbv zeta.
    fold guess0. rewrite Hsplit. reflexivity. }
  destruct (sweep_records r1 r2 r3 r4 guess0 done t2 (t2 :: later))
    as [A3 A4].
  destruct (sweep_records r1 r2 r3 r4 guess0 (done ++ [t2]) t2 later)
    as [B3 B4].
  replace ((done ++ [t2]) ++ t2 :: later) with (done ++ t2 :: t2 :: later)
    in B3, B4 by (rewrite <- app_assoc; reflexivity).
  rewrite length_app, Nat.add_comm in B3, B4. cbn [length Nat.add] in B3, B4.
  destruct (outcome_for_repeat guess0 done t2) as [Hrec Hguess].
  rewrite Hres. cbn [fst snd].
  rewrite A3, A4, B3, B4, Hrec.
  repeat split.
  replace (done ++ [t2; t2]) with ((done ++ [t2]) ++ [t2])
    by (rewrite <- app_assoc; reflexivity).
  exact Hguess.
Qed.

End SweepRepeat.

Section SweepRepeatExample.
Local Open Scope float_scope.
#[local] Existing Instance Binary64.ops.
#[local] Existing Instance Binary64.nan64.

(** The source's linkage swept over 0 degrees twice. *)
Lemma repeated_sample_witness :
  let result := position_sweep 6 2 5 5 0 [0] in
  nth_error (fst result) 1 = nth_error (fst result) 0 /\
  nth_error (snd result) 1 = nth_error (snd result) 0 /\
  guess_for 6 2 5 5 (first_guess 6 2 5 5 0) [0; 0]
  = guess_for 6 2 5 5 (first_guess 6 2 5 5 0) [0].
Proof.
  apply (repeated_sample_same_entry 6 2 5 5 0 [0] [] [] 0).
  reflexivity.
Defined.

End SweepRepeatExample.

(** * analytical_solution on Python floats *)

(** ** Python's float operations *)

(** The exceptions the float operations of the source can raise. *)
Inductive PyExn : Type :=
| ZeroDivisionError
| OverflowError.

Inductive PyResult (A : Type) : Type :=
| Returned (a : A)
| Raised (e : PyExn).

Arguments Returned {A} a.
Arguments Raised {A} e.

(** What decides whether a Python float operation raises: [x == 0.0], the
    test [/] makes on its divisor, and whether [x ** 2] overflows.  Python's
    [+], [-] and [*] on floats never raise. *)
Class PyFloatOps (F : Type) : Type := {
  fis_zero : F -> bool;
  fsquare_raises : F -> bool
}.

(** On binary64: [x ** 2] raises [OverflowError] when [x] is finite and its
    square is not; infinities and NaN pass through. *)
#[export] Instance binary64_python : PyFloatOps float := {
  fis_zero := fun x => PrimFloat.eqb x 0%float;
  fsquare_raises := fun x =>
    PrimFloat.is_finite x && PrimFloat.is_infinity (PrimFloat.mul x x)
}.

Module Python.
Section WithFloats.
Context {F : Type} {ops : FloatOps F} {py : PyFloatOps F}.
Local Open Scope fl_scope.

(** [a / b] on Python floats. *)
Definition div (a b : F) : PyResult F :=
  if fis_zero b then Raised ZeroDivisionError else Returned (a / b).

(** [a ** 2] on a Python float. *)
Definition square (a : F) : PyResult F :=
  if fsquare_raises a then Raised OverflowError else Returned (fsquare a).

Definition bind {A B : Type} (c : PyResult A) (k : A -> PyResult B)
  : PyResult B :=
  match c with
  | Returned a => k a
  | Raised e => Raised e
  end.

Local Notation "x <- c ;; k" := (bind c (fun x => k))
  (at level 61, c at next level, right associativity).

(** [analytical_solution(r1, r2, r3, r4, theta2_deg)] with the link lengths
    Python floats: lines 111-113 and 132-133 evaluate in Python, operands
    from left to right, and the rest in numpy. *)
Definition analytical_solution (r1 r2 r3 r4 theta2_deg : F)
  : PyResult (option F * option F) :=
  let theta2 := fradians theta2_deg in
  K1 <- div r1 r2 ;;
  K2 <- div r1 r4 ;;
  r1_2 <- square r1 ;;
  r2_2 <- square r2 ;;
  r3_2 <- square r3 ;;
  r4_2 <- square r4 ;;
  K3 <- div (r1_2 + r2_2 + r3_2 - r4_2) (of_int 2 * r2 * r3) ;;
  let A := fcos theta2 - K1 - K2 * fcos theta2 + K3 in
  let B := of_int (-2) * fsin theta2 in
  let C := K1 - (K2 + of_int 1) * fcos theta2 + K3 in
  let discriminant := fsquare B - of_int 4 * A * C in
  if discriminant <? of_int 0 then Returned (None, None)
  else
    let theta4_solution1 :=
      of_int 2 * farctan ((- B + fsqrt discriminant) / (of_int 2 * A)) in
    let theta4_solution2 :=
      of_int 2 * farctan ((- B - fsqrt discriminant) / (of_int 2 * A)) in
    let theta4 := theta4_solution1 in
    K4 <- div r1 r3 ;;
    r4_2' <- square r4 ;;
    r1_2' <- square r1 ;;
    r2_2' <- square r2 ;;
    r3_2' <- square r3 ;;
    K5 <- div (r4_2' - r1_2' - r2_2' - r3_2') (of_int 2 * r2 * r3) ;;
    let D := fcos theta2 - K1 + K4 * fcos theta4 + K5 in
    let E := of_int (-2) * fsin theta2 in
    let F' := K1 + (K4 - of_int 1) * fcos theta4 + K5 in
    let discriminant2 := fsquare E - of_int 4 * D * F' in
    if discriminant2 <? of_int 0 then Returned (Some theta4, None)
    else
      let theta3 :=
        of_int 2 * farctan ((- E - fsqrt discriminant2) / (of_int 2 * D)) in
      Returned (Some theta3, Some theta4).

End WithFloats.
End Python.

(** The exception lines 111-113 raise, if any, in the order the source
    evaluates: the divisor [r2] of [K1], the divisor [r4] of [K2], the four
    squares of [K3], its divisor [2 * r2 * r3]. *)
Definition first_raise {F : Type} {ops : FloatOps F} {py : PyFloatOps F}
  (r1 r2 r3 r4 : F) : option PyExn :=
  if fis_zero r2 then Some ZeroDivisionError
  else if fis_zero r4 then Some ZeroDivisionError
  else if fsquare_raises r1 then Some OverflowError
  else if fsquare_raises r2 then Some OverflowError
  else if fsquare_raises r3 then Some OverflowError
  else if fsquare_raises r4 then Some OverflowError
  else if fis_zero (of_int 2 * r2 * r3)%fl then Some ZeroDivisionError
  else None.

(** ** Properties of analytical_solution on Python floats *)

Section PythonTheorems.
Context {F : Type} {ops : FloatOps F} {py : PyFloatOps F}.
Variables r1 r2 r3 r4 theta2_deg : F.
Local Open Scope fl_scope.

Local Abbreviation disc := (discriminant r1 r2 r3 r4 theta2_deg).
Local Abbreviation disc2 := (discriminant2 r1 r2 r3 r4 theta2_deg).
Local Abbreviation th4 := (theta4_open r1 r2 r3 r4 theta2_deg).
Local Abbreviation th3 := (theta3_branch r1 r2 r3 r4 theta2_deg).

(** Every way out of the function: the exception of lines 111-113, the
    first return, the exception of line 132, the two later returns. *)
Lemma python_analytical_solution_unfold :
  Python.analytical_solution r1 r2 r3 r4 theta2_deg =
  match first_raise r1 r2 r3 r4 with
  | Some e => Raised e
  | None =>
      if disc <? of_int 0 then Returned (None, None)
      else if fis_zero r3 then Raised ZeroDivisionError
      else if disc2 <? of_int 0 then Returned (Some th4, None)
      else Returned (Some th3, Some th4)
  end.
Proof.
  unfold Python.analytical_solution, first_raise, Python.div, Python.square.
  destruct (fis_zero r2); [reflexivity|].
  destruct (fis_zero r4); [reflexivity|].
  destruct (fsquare_raises r1); [reflexivity|].
  destruct (fsquare_raises r2); [reflexivity|].
  destruct (fsquare_raises r3); [reflexivity|].
  destruct (fsquare_raises r4); [reflexivity|].
  destruct (fis_zero (of_int 2 * r2 * r3)); [reflexivity|].
  cbn [Python.bind].
  change (fsquare (of_int (-2) * fsin (fradians theta2_deg))
          - of_int 4
            * (fcos (fradians theta2_deg) - r1 / r2
               - r1 / r4 * fcos (fradians theta2_deg)
               + (fsquare r1 + fsquare r2 + fsquare r3 - fsquare r4)
                 / (of_int 2 * r2 * r3))
            * (r1 / r2 - (r1 / r4 + of_int 1) * fcos (fradians theta2_deg)
               + (fsquare r1 + fsquare r2 + fsquare r3 - fsquare r4)
                 / (of_int 2 * r2 * r3)))
    with disc.
  destruct (disc <? of_int 0); [reflexivity|].
  destruct (fis_zero r3); reflexivity.
Qed.

(** Where no exception is raised the function returns what the total one
    computes. *)
Lemma python_analytical_solution_total :
  first_raise r1 r2 r3 r4 = None ->
  fis_zero r3 = false ->
  Python.analytical_solution r1 r2 r3 r4 theta2_deg
  = Returned (analytical_solution r1 r2 r3 r4 theta2_deg).
Proof.
  intros Hp H3.
  rewrite python_analytical_solution_unfold, Hp, H3.
  rewrite analytical_solution_unfold.
  destruct (disc <? of_int 0); [reflexivity|].
  destruct (disc2 <? of_int 0); reflexivity.
Qed.

(** The exceptions of lines 111-113 leave the function as they are. *)
Lemma python_analytical_solution_raises (e : PyExn) :
  first_raise r1 r2 r3 r4 = Some e ->
  Python.analytical_solution r1 r2 r3 r4 theta2_deg = Raised e.
Proof.
  intros Hp. rewrite python_analytical_solution_unfold, Hp. reflexivity.
Qed.


(** C7, as the code has it.  For link lengths on which lines 111-113 raise
    nothing, a negative discriminant [B^2 - 4AC] makes the function return
    [(None, None)]. *)
Theorem python_analytical_solution_no_solution :
  first_raise r1 r2 r3 r4 = None ->
  (disc <? of_int 0) = true ->
  Python.analytical_solution r1 r2 r3 r4 theta2_deg = Returned (None, None).
Proof.
  intros Hp Hd.
  rewrite python_analytical_solution_unfold, Hp, Hd. reflexivity.
Qed.

End PythonTheorems.

Section PythonExamples.
Local Open Scope float_scope.
#[local] Existing Instance Binary64.ops.

(** The lengths of the source raise nothing, and its two calls of
    [analytical_solution] return what the total function computes. *)
Lemma source_lengths_in_range :
  first_raise 6 2 5 5 = None /\
  Python.analytical_solution 6 2 5 5 0 = Returned (analytical_solution 6 2 5 5 0) /\
  Python.analytical_solution 6 2 5 5 45
  = Returned (analytical_solution 6 2 5 5 45).
Proof.
  split; [vm_compute; reflexivity|].
  split; apply python_analytical_solution_total; vm_compute; reflexivity.
Qed.


(** Links [6, 2, 1, 1] at [theta2 = 0]: nothing is raised and the first
    discriminant is negative. *)
Lemma python_no_solution_witness :
  Python.analytical_solution 6 2 1 1 0 = Returned (None, None).
Proof.
  apply (python_analytical_solution_no_solution 6 2 1 1 0).
  - vm_compute. reflexivity.
  - vm_compute. reflexivity.
Defined.

(** Links [1e200, 2, 5, 5] at [theta2 = 0]: [B^2 - 4AC] is negative (it is
    minus infinity in binary64, and negative in exact arithmetic), and the
    function raises [OverflowError] at [r1**2] in line 113 instead of
    returning [(None, None)].  [0x1.4e718d7d7625ap+664] is the float
    [1e200]. *)
Lemma negative_discriminant_raises_counterexample :
  (discriminant 0x1.4e718d7d7625ap+664 2 5 5 0 <? of_int 0)%fl = true /\
  Python.analytical_solution 0x1.4e718d7d7625ap+664 2 5 5 0
  = Raised OverflowError.
Proof. split; vm_compute; reflexivity. Qed.

End PythonExamples.

(** ** A guess at which the Jacobian is singular *)

Section SingularGuess.
Context {F : Type} {ops : FloatOps F} {nanF : FloatNaN F}.
Variables r1 r2 r3 r4 : F.

(** From a guess that fails the determinant test the solver returns in its
    first iteration, with the guess. *)
Lemma solve_singular_guess (t2 : F) (g : F * F) (track : bool) :
  singular r3 r4 g = true ->
  newton_raphson_4bar r1 r2 r3 r4 t2 g track
  = outcome_of track g (within_tol r1 r2 r3 r4 (fradians t2) g)
      (if track
       then Some [(0%nat, error_norm_at r1 r2 r3 r4 (fradians t2) g)]
       else None).
Proof.
  intros Hs. apply (solve_stops r1 r2 r3 r4 t2 g track 0).
  - unfold max_iter. lia.
  - intros j Hj. lia.
  - simpl. unfold proceeds. rewrite Hs. apply andb_false_r.
Qed.

Lemma guess_for_singular (g : F * F) (done : list F) :
  singular r3 r4 g = true -> guess_for r1 r2 r3 r4 g done = g.
Proof.
  intros Hs. induction done as [|x done IH] using rev_ind; [reflexivity|].
  unfold guess_for. rewrite sweep_after_snoc. cbv zeta.
  cbn [current_guess]. unfold next_guess, outcome_for. rewrite IH.
  rewrite (solve_singular_guess x g false Hs), converged_outcome_of.
  destruct (within_tol _ _ _ _ _ _); [|reflexivity].
  unfold outcome_of. destruct g. reflexivity.
Qed.

(** X10.  A first guess at which the determinant test fires,
    [|det| < 1e-9], is never left by the sweep: whatever the samples, every
    one of them is solved from that guess, the solve returns it without an
    update, and what is stored is NaN or the guess in degrees.  The
    determinant does not depend on the sample, so one failed test condemns
    the whole sweep; the fallback guess, whose two angles are equal, is
    such a guess for the link lengths of the example below. *)
Theorem singular_first_guess_is_never_left
  (theta2_first : F) (theta2_rest done later : list F) (t2 : F) :
  let result := position_sweep r1 r2 r3 r4 theta2_first theta2_rest in
  let guess0 := first_guess r1 r2 r3 r4 theta2_first in
  singular r3 r4 guess0 = true ->
  theta2_first :: theta2_rest = done ++ t2 :: later ->
  guess_for r1 r2 r3 r4 guess0 done = guess0 /\
  (theta3 (outcome_for r1 r2 r3 r4 guess0 done t2),
   theta4 (outcome_for r1 r2 r3 r4 guess0 done t2)) = guess0 /\
  (nth_error (fst result) (length done) = Some fnan \/
   nth_error (fst result) (length done) = Some (fdegrees (fst guess0))) /\
  (nth_error (snd result) (length done) = Some fnan \/
   nth_error (snd result) (length done) = Some (fdegrees (snd guess0))).
Proof.
  intros result guess0 Hs Hsplit.
  pose proof (guess_for_singular guess0 done Hs) as Hgd.
  assert (Hout : outcome_for r1 r2 r3 r4 guess0 done t2
                 = outcome_of false guess0
                     (within_tol r1 r2 r3 r4 (fradians t2) guess0) None).
  { unfold outcome_for. rewrite Hgd. apply (solve_singular_guess t2 guess0 false Hs). }
  destruct (sweep_records r1 r2 r3 r4 guess0 done t2 later) as [R3 R4].
  assert (Hres : result =
            (theta3_sol (sweep_after r1 r2 r3 r4 guess0 (done ++ t2 :: later)),
             theta4_sol (sweep_after r1 r2 r3 r4 guess0 (done ++ t2 :: later)))).
  { unfold result. rewrite position_sweep_unfold. cbv zeta.
    fold guess0. rewrite Hsplit. reflexivity. }
  split; [exact Hgd|].
  split; [rewrite Hout; apply angles_outcome_of|].
  rewrite Hres. cbn [fst snd]. rewrite R3, R4, Hout. unfold recorded.
  rewrite converged_outcome_of.
  destruct (within_tol _ _ _ _ _ _); cbn [fst snd outcome_of theta3 theta4];
    split; auto.
Qed.

End SingularGuess.

Section SingularGuessExample.
Local Open Scope float_scope.
#[local] Existing Instance Binary64.ops.
#[local] Existing Instance Binary64.nan64.

(** Links [6, 2, 1, 1] swept over 0, 1 and 2 degrees: the first guess is
    the fallback, its determinant is zero, and the third sample is solved
    from it and stored as NaN or 45 degrees. *)
Lemma singular_first_guess_witness :
  let result := position_sweep 6 2 1 1 0 [1; 2] in
  let guess0 := first_guess 6 2 1 1 0 in
  guess_for 6 2 1 1 guess0 [0; 1] = guess0 /\
  (theta3 (outcome_for 6 2 1 1 guess0 [0; 1] 2),
   theta4 (outcome_for 6 2 1 1 guess0 [0; 1] 2)) = guess0 /\
  (nth_error (fst result) 2 = Some fnan \/
   nth_error (fst result) 2 = Some (fdegrees (fst guess0))) /\
  (nth_error (snd result) 2 = Some fnan \/
   nth_error (snd result) 2 = Some (fdegrees (snd guess0))).
Proof.
  apply (singular_first_guess_is_never_left 6 2 1 1 0 [1; 2] [0; 1] [] 2).
  - vm_compute. reflexivity.
  - reflexivity.
Defined.

End SingularGuessExample.
